(** * SomaStatus: health-check monitor and status page

    A shallow embedding of the monitor script (probe resolution, check
    execution, daily aggregation, retention) and of helpers of the status
    page ([getOverallStatus], the record readers of data.ts, the
    thresholds of constants.ts, [escapeXml]), followed by the properties
    established about them.

    Conventions.
    - JavaScript numbers that the script only ever uses as integers
      (millisecond durations, HTTP status codes, counters) are [Z].
    - Other numbers are rationals [Q].  [uptimePercent] is computed as
      the script computes it, in IEEE 754 binary64: every division and
      multiplication is followed by [binary64], the rounding to the
      nearest double.  The mean and the percentile index are taken on
      exact values, which give the same integers as the doubles for the
      magnitudes the script handles (sums below 2^52; [n * 0.95] is never
      rounded up across an integer because the double nearest to 0.95
      lies below 0.95).
    - A JS object used as a dictionary is the [gmap string _] of its own
      properties.  Where the script reads or writes such an object under
      a computed key, the members it inherits from [Object.prototype] are
      taken into account: see [Object_prototype] and [set_property].
    - Exceptions are an explicit [Throw] result; the file system and the
      network are a [World] threaded through the effectful functions. *)

From Stdlib Require Import ZArith QArith Qround Qpower Lqa.
From Stdlib Require Import String Ascii List Lia.
From stdpp Require Import gmap strings list sorting.

Local Open Scope Z_scope.

(* ================================================================= *)
(** ** JavaScript runtime pieces the script relies on *)

Module JS.

(** Exceptions the modelled built-ins can raise. *)
Inductive Error : Type :=
  | SyntaxError   (* JSON.parse on malformed text *)
  | TypeError     (* property access on null *)
  | ENOENT.       (* file-system call on a missing path *)

Inductive result (A : Type) : Type :=
  | Ok (a : A)
  | Throw (e : Error).
Arguments Ok {A} a.
Arguments Throw {A} e.

(** [Math.round]: nearest integer, ties towards +infinity. *)
Definition Math_round (x : Q) : Z := Qfloor (x + (1 # 2)).

(** [Math.ceil]. *)
Definition Math_ceil (x : Q) : Z := Qceiling x.

(** [Math.max] on integers. *)
Definition Math_max (a b : Z) : Z := Z.max a b.

(** *** Numbers

    A [Number] is an IEEE 754 binary64 value, and an arithmetic operation
    returns the double nearest to its exact result, ties going to the even
    significand.  [binary64 x] is that rounding of the exact value [x].
    The exponent range is left unbounded: no value of the script comes
    near 2^1024 or, when it is not zero, below 2^-1022. *)

Definition pow2 (e : Z) : Q := (2 ^ e)%Q.

(** Nearest integer, ties to the even one. *)
Definition round_half_even (x : Q) : Z :=
  let f := Qfloor x in
  match (x - inject_Z f ?= 1 # 2)%Q with
  | Lt => f
  | Gt => f + 1
  | Eq => if Z.even f then f else f + 1
  end.

(** The binary exponent of a positive [x]: [2^e <= x < 2^(e+1)]. *)
Definition exponent (x : Q) : Z :=
  let e := Z.log2 (Qnum x) - Z.log2 (Z.pos (Qden x)) in
  if Qle_bool (pow2 e) x then e else e - 1.

(** The double nearest to a positive [x]: a 53-bit significand times the
    unit in the last place. *)
Definition nearest (x : Q) : Q :=
  let ulp := pow2 (exponent x - 52) in
  (inject_Z (round_half_even (x / ulp)) * ulp)%Q.

Definition binary64 (x : Q) : Q :=
  Qred match Qnum x with
       | 0 => 0
       | Z.pos _ => nearest x
       | Z.neg _ => - nearest (- x)
       end.

(** *** Objects

    The property names that an object created by [{}] or by [JSON.parse]
    inherits from [Object.prototype].  Reading one of them on an object
    that has no own property of that name gives the inherited function
    (for "__proto__", the prototype object), which is truthy. *)
Definition Object_prototype : list string :=
  ["__proto__"; "constructor"; "hasOwnProperty"; "isPrototypeOf";
   "propertyIsEnumerable"; "toLocaleString"; "toString"; "valueOf";
   "__defineGetter__"; "__defineSetter__"; "__lookupGetter__";
   "__lookupSetter__"].

(** [obj[key] = value] on such an object: the own property [key] is
    created or overwritten.  The key "__proto__" is the exception: unless
    the object has an own property of that name, the assignment runs the
    inherited setter, which replaces the prototype of [obj] and creates
    no property. *)
Definition set_property {A : Type} (obj : gmap string A) (key : string)
    (value : A) : gmap string A :=
  match obj !! key with
  | Some _ => <[key := value]> obj
  | None => if decide (key = "__proto__") then obj else <[key := value]> obj
  end.

(** Decoded JSON values. An object is its list of own properties. *)
#[warnings="-register-all"]
Inductive json : Type :=
  | JNull
  | JBool (b : bool)
  | JNum (q : Q)
  | JStr (s : string)
  | JArr (items : list json)
  | JObj (props : list (string * json)).

(** The value of a property read, as far as [===] against a string can
    tell: inherited built-in properties are functions or objects, hence
    indistinguishable from [undefined] here. *)
Inductive prop : Type :=
  | PUndefined
  | PValue (j : json).

Definition digit_of (c : ascii) : option nat :=
  let n := nat_of_ascii c in
  if bool_decide (48 <= n <= 57)%nat then Some (n - 48)%nat else None.

Fixpoint digits_value (acc : nat) (s : string) : option nat :=
  match s with
  | EmptyString => Some acc
  | String c s' =>
      match digit_of c with
      | Some d => digits_value (10 * acc + d)%nat s'
      | None => None
      end
  end.

(** A canonical array index: "0", or digits without a leading zero. *)
Definition array_index (s : string) : option nat :=
  match s with
  | EmptyString => None
  | String c EmptyString => digit_of c
  | String c _ =>
      if Ascii.eqb c "0"%char then None else digits_value 0%nat s
  end.

Fixpoint assoc (k : string) (props : list (string * json)) : option json :=
  match props with
  | [] => None
  | (k', v) :: rest => if String.eqb k k' then Some v else assoc k rest
  end.

(** [body[field]] for a decoded JSON body. *)
Definition get_property (body : json) (field : string) : result prop :=
  match body with
  | JNull => Throw TypeError
  | JBool _ | JNum _ => Ok PUndefined
  | JStr s =>
      match array_index field with
      | Some i =>
          match String.get i s with
          | Some c => Ok (PValue (JStr (String c EmptyString)))
          | None => Ok PUndefined
          end
      | None =>
          if String.eqb field "length"
          then Ok (PValue (JNum (inject_Z (Z.of_nat (String.length s)))))
          else Ok PUndefined
      end
  | JArr items =>
      match array_index field with
      | Some i =>
          match items !! i with
          | Some j => Ok (PValue j)
          | None => Ok PUndefined
          end
      | None =>
          if String.eqb field "length"
          then Ok (PValue (JNum (inject_Z (Z.of_nat (length items)))))
          else Ok PUndefined
      end
  | JObj props =>
      match assoc field props with
      | Some j => Ok (PValue j)
      | None => Ok PUndefined
      end
  end.

(** [p === v] where [v] is a string. *)
Definition strict_equals_string (p : prop) (v : string) : bool :=
  match p with
  | PValue (JStr s) => String.eqb s v
  | _ => false
  end.

(** [s.endsWith(suffix)]. *)
Definition endsWith (s suffix : string) : bool :=
  let n := String.length s in
  let k := String.length suffix in
  (k <=? n)%nat && String.eqb (substring (n - k) k s) suffix.

Fixpoint string_drop (n : nat) (s : string) : string :=
  match n, s with
  | O, _ => s
  | S n', String _ s' => string_drop n' s'
  | S _, EmptyString => EmptyString
  end.

(** [s.replace(pat, rep)] with a string pattern: the first occurrence
    only. *)
Fixpoint replace (s pat rep : string) : string :=
  if String.prefix pat s then rep +:+ string_drop (String.length pat) s
  else match s with
       | EmptyString => EmptyString
       | String c s' => String c (replace s' pat rep)
       end.

(** *** Dates

    A [Date] is a time value: milliseconds since 1970-01-01T00:00:00Z.
    Only its UTC day matters to the script. [setUTCDate(getUTCDate() - k)]
    moves the time value back by [k] whole days. *)
Definition msPerDay : Z := 86400000.
Definition Day (t : Z) : Z := t / msPerDay.

(** Day number to (year, month, day) in the proleptic Gregorian calendar. *)
Definition civil_in_era (doe : Z) : Z * Z * Z :=
  let yoe := (doe - doe / 1460 + doe / 36524 - doe / 146096) / 365 in
  let doy := doe - (365 * yoe + yoe / 4 - yoe / 100) in
  let mp := (5 * doy + 2) / 153 in
  let d := doy - (153 * mp + 2) / 5 + 1 in
  let m := if mp <? 10 then mp + 3 else mp - 9 in
  (yoe + (if m <=? 2 then 1 else 0), m, d).

Definition civil_from_days (day : Z) : Z * Z * Z :=
  let z := day + 719468 in
  let era := z / 146097 in
  let doe := z - era * 146097 in
  let '(y, m, d) := civil_in_era doe in
  (y + era * 400, m, d).

Definition digit_char (n : Z) : ascii :=
  ascii_of_nat (48 + Z.to_nat (n mod 10)).

(** [n] in decimal, zero-padded to [width] digits. *)
Fixpoint pad (width : nat) (n : Z) : string :=
  match width with
  | O => EmptyString
  | S w => pad w (n / 10) +:+ String (digit_char n) EmptyString
  end.

(** Year part of [toISOString]: four digits, or a sign and six digits
    outside 0..9999. *)
Definition isoYear (y : Z) : string :=
  if (0 <=? y) && (y <=? 9999) then pad 4 y
  else if y <? 0 then "-" +:+ pad 6 (- y) else "+" +:+ pad 6 y.

(** [date.toISOString().split('T')[0]] for a date on day [day]. *)
Definition isoDate (day : Z) : string :=
  let '(y, m, d) := civil_from_days day in
  isoYear y +:+ "-" +:+ pad 2 m +:+ "-" +:+ pad 2 d.

End JS.

Import JS.

(* ================================================================= *)
(** ** Data model (types.ts and the objects the monitor builds) *)

Inductive Status : Type := up | degraded | down.

Global Instance Status_eq_dec : EqDecision Status.
Proof. solve_decision. Defined.

Module Validate.
Record t : Type := mk { field : string; value : string }.
End Validate.

(** One resolved probe, as pushed by [buildChecks]. *)
Module ProbeSpec.
Record t : Type := mk {
  id : string;
  name : string;
  url : string;
  timeout : Z;
  validate : option Validate.t;
  expectedStatusCodes : list Z
}.
End ProbeSpec.

Module CheckResult.
Record t : Type := mk {
  status : Status;
  responseTime : Z;
  statusCode : Z
}.
End CheckResult.

Module DayData.
Record t : Type := mk {
  date : string;
  uptimePercent : Q;
  avgResponseTime : Z;
  status : Status;
  totalChecks : Z
}.
End DayData.

Module ComponentStatus.
Record t : Type := mk {
  id : string;
  name : string;
  status : Status;
  uptimePercent : Q;
  avgResponseTime : Z;
  dailyData : list DayData.t
}.
End ComponentStatus.

Module GroupStatus.
Record t : Type := mk {
  id : string;
  name : string;
  description : string;
  uptimePercent : Q;
  status : Status;
  components : list ComponentStatus.t
}.
End GroupStatus.

Module OverallStatus.
Record t : Type := mk { status : Status; label : string }.
End OverallStatus.

(* ================================================================= *)
(** ** Check execution (monitor script, [executeCheck]) *)

(** What the network does to one probe.  [Rejected]: [fetch] threw
    (transport failure, or the abort fired at the timeout); the argument
    is [Date.now() - start] in the handler.  [Responded]: [fetch]
    resolved; [elapsed] is [Date.now() - start] right after it, [status]
    is [response.status], and [body] is the outcome of
    [response.json()] ([None] when it rejects). *)
Inductive FetchOutcome : Type :=
  | Rejected (elapsed : Z)
  | Responded (elapsed : Z) (status : Z) (body : option json).

Definition includes (codes : list Z) (c : Z) : bool :=
  bool_decide (c ∈ codes).

Definition executeCheck (check : ProbeSpec.t) (o : FetchOutcome)
  : CheckResult.t :=
  match o with
  | Responded responseTime statusCode body =>
      let isExpectedStatus :=
        includes (ProbeSpec.expectedStatusCodes check) statusCode in
      let validationPassed :=
        match ProbeSpec.validate check with
        | Some v =>
            if isExpectedStatus then
              match body with
              | Some b =>
                  match get_property b (Validate.field v) with
                  | Ok p => strict_equals_string p (Validate.value v)
                  | Throw _ => false
                  end
              | None => false
              end
            else true
        | None => true
        end in
      if negb isExpectedStatus || negb validationPassed then
        CheckResult.mk down responseTime statusCode
      else
        let degradedThreshold :=
          (inject_Z (ProbeSpec.timeout check) * (1 # 2))%Q in
        let status :=
          if negb (Qle_bool (inject_Z responseTime) degradedThreshold)
          then degraded else up in
        CheckResult.mk status responseTime statusCode
  | Rejected responseTime =>
      CheckResult.mk down responseTime 0
  end.

(* ================================================================= *)
(** ** Status page (data.ts, [getOverallStatus]) *)

Definition getOverallStatus (groups : list GroupStatus.t) : OverallStatus.t :=
  let hasDown :=
    existsb (fun g =>
      existsb (fun c => bool_decide (ComponentStatus.status c = down))
              (GroupStatus.components g)) groups in
  let status := if hasDown then down else up in
  let label :=
    if hasDown then "System Outage" else "All Systems Operational" in
  OverallStatus.mk status label.

(* ================================================================= *)
(** ** Configuration and probe resolution (monitor script, [buildChecks]) *)

Module ComponentConfig.
Record t : Type := mk {
  id : string;
  name : string;
  endpoint : option string;
  url : option string;
  params : option bool;
  timeout : option Z;
  validate : option Validate.t;
  expectedStatusCodes : option (list Z)
}.
End ComponentConfig.

Module GroupConfig.
Record t : Type := mk {
  id : string;
  name : string;
  description : string;
  components : list ComponentConfig.t
}.
End GroupConfig.

Module ExternalConfig.
Record t : Type := mk {
  id : string;
  name : string;
  url : string;
  timeout : option Z
}.
End ExternalConfig.

(** [testLat] and [testLon] are kept as their decimal rendering, the only
    way the script uses them. *)
Module Config.
Record t : Type := mk {
  baseUrl : string;
  testLat : string;
  testLon : string;
  groups : list GroupConfig.t;
  external : list ExternalConfig.t
}.
End Config.

(** [arr.push(x)]. *)
Definition push {A : Type} (arr : list A) (x : A) : list A := arr ++ [x].

(** [t || 10000]: a missing or zero timeout is falsy. *)
Definition timeout_or_default (t : option Z) : Z :=
  match t with
  | Some n => if n =? 0 then 10000 else n
  | None => 10000
  end.

(** [`${x}`] for an optional string. *)
Definition template (x : option string) : string :=
  match x with
  | Some s => s
  | None => "undefined"
  end.

Definition component_check (cfg : Config.t) (comp : ComponentConfig.t)
  : ProbeSpec.t :=
  let url :=
    match ComponentConfig.url comp with
    | Some (String c r) => String c r
    | _ =>
        let params :=
          match ComponentConfig.params comp with
          | Some true =>
              "?lat=" +:+ Config.testLat cfg +:+ "&lon=" +:+ Config.testLon cfg
          | _ => EmptyString
          end in
        Config.baseUrl cfg +:+ template (ComponentConfig.endpoint comp)
          +:+ params
    end in
  ProbeSpec.mk
    (ComponentConfig.id comp)
    (ComponentConfig.name comp)
    url
    (timeout_or_default (ComponentConfig.timeout comp))
    (ComponentConfig.validate comp)
    (match ComponentConfig.expectedStatusCodes comp with
     | Some codes => codes
     | None => [200]
     end).

Definition external_check (ext : ExternalConfig.t) : ProbeSpec.t :=
  ProbeSpec.mk
    (ExternalConfig.id ext)
    (ExternalConfig.name ext)
    (ExternalConfig.url ext)
    (timeout_or_default (ExternalConfig.timeout ext))
    None
    [200].

Definition buildChecks (cfg : Config.t) : list ProbeSpec.t :=
  let checks := [] in
  let checks :=
    foldl (fun checks group =>
             foldl (fun checks comp => push checks (component_check cfg comp))
                   checks (GroupConfig.components group))
          checks (Config.groups cfg) in
  let checks :=
    foldl (fun checks ext => push checks (external_check ext))
          checks (Config.external cfg) in
  checks.

(* ================================================================= *)
(** ** Daily records *)

Module CheckEntry.
Record t : Type := mk {
  timestamp : string;
  results : gmap string CheckResult.t
}.
End CheckEntry.

Module DaySummary.
Record t : Type := mk {
  totalChecks : Z;
  upChecks : Z;
  degradedChecks : Z;
  downChecks : Z;
  uptimePercent : Q;
  avgResponseTime : Z;
  p95ResponseTime : Z
}.
End DaySummary.

Module DailyFile.
Record t : Type := mk {
  date : string;
  checks : list CheckEntry.t;
  summary : gmap string DaySummary.t
}.
End DailyFile.

(* ================================================================= *)
(** ** The world the script acts on *)

(** Content of a file of the checks directory: text that [JSON.parse]
    rejects, or the serialisation of a daily record
    ([JSON.parse (JSON.stringify d) = d] on this data). *)
Inductive FileContent : Type :=
  | Corrupt
  | Stored (d : DailyFile.t).

(** Observable actions, most recent last. *)
Inductive Event : Type :=
  | EvFetch (url : string)
  | EvMkdir
  | EvUnlink (file : string)
  | EvWriteFile (file : string) (d : DailyFile.t).

(** [checks_dir]: the files of [CHECKS_DIR] by name, [None] while the
    directory does not exist. *)
Record World : Type := mkWorld {
  checks_dir : option (gmap string FileContent);
  events : list Event
}.

(** State and exceptions: a computation returns a value or throws, and
    the effects made before a throw persist. *)
Definition M (A : Type) : Type := World -> result A * World.

Definition ret {A : Type} (a : A) : M A := fun w => (Ok a, w).

Definition throw {A : Type} (e : Error) : M A := fun w => (Throw e, w).

Definition bind {A B : Type} (m : M A) (k : A -> M B) : M B :=
  fun w =>
    match m w with
    | (Ok a, w') => k a w'
    | (Throw e, w') => (Throw e, w')
    end.

(** [try { m } catch { h }]. *)
Definition try_catch {A : Type} (m : M A) (h : M A) : M A :=
  fun w =>
    match m w with
    | (Ok a, w') => (Ok a, w')
    | (Throw _, w') => h w'
    end.

Declare Scope js_scope.
Delimit Scope js_scope with js.
Notation "x <- m ;; k" := (bind m (fun x => k))
  (at level 100, m at next level, right associativity) : js_scope.
Notation "m ;; k" := (bind m (fun _ => k))
  (at level 100, right associativity) : js_scope.

(** [for (const x of xs) body]. *)
Fixpoint for_of {A : Type} (xs : list A) (body : A -> M unit) : M unit :=
  match xs with
  | [] => ret tt
  | x :: rest => (body x ;; for_of rest body)%js
  end.

Definition emit (e : Event) : M unit :=
  fun w => (Ok tt, mkWorld (checks_dir w) (push (events w) e)).

Definition lift {A : Type} (r : result A) : M A := fun w => (r, w).

(** *** [node:fs] on the checks directory *)

Definition fs_existsSync_dir : M bool :=
  fun w => (Ok (bool_decide (is_Some (checks_dir w))), w).

Definition fs_existsSync (file : string) : M bool :=
  fun w =>
    match checks_dir w with
    | Some dir => (Ok (bool_decide (is_Some (dir !! file))), w)
    | None => (Ok false, w)
    end.

Definition fs_mkdirSync_recursive : M unit :=
  fun w =>
    match checks_dir w with
    | Some _ => (Ok tt, w)
    | None => (Ok tt, mkWorld (Some ∅) (push (events w) EvMkdir))
    end.

Definition fs_readdirSync : M (list string) :=
  fun w =>
    match checks_dir w with
    | Some dir => (Ok (map fst (map_to_list dir)), w)
    | None => (Throw ENOENT, w)
    end.

Definition fs_readFileSync (file : string) : M FileContent :=
  fun w =>
    match checks_dir w with
    | Some dir =>
        match dir !! file with
        | Some c => (Ok c, w)
        | None => (Throw ENOENT, w)
        end
    | None => (Throw ENOENT, w)
    end.

Definition fs_writeFileSync (file : string) (d : DailyFile.t) : M unit :=
  fun w =>
    match checks_dir w with
    | Some dir =>
        (Ok tt, mkWorld (Some (<[file := Stored d]> dir))
                        (push (events w) (EvWriteFile file d)))
    | None => (Throw ENOENT, w)
    end.

Definition fs_unlinkSync (file : string) : M unit :=
  fun w =>
    match checks_dir w with
    | Some dir =>
        match dir !! file with
        | Some _ =>
            (Ok tt, mkWorld (Some (delete file dir))
                            (push (events w) (EvUnlink file)))
        | None => (Throw ENOENT, w)
        end
    | None => (Throw ENOENT, w)
    end.

Definition JSON_parse (c : FileContent) : result DailyFile.t :=
  match c with
  | Corrupt => Throw SyntaxError
  | Stored d => Ok d
  end.

(* ================================================================= *)
(** ** Running the checks (monitor script, [runAllChecks]) *)

(** [net i] is what happens to the request of the [i]-th probe, and
    [order] lists the probe indices in the order their executions
    complete; each completion stores its result under the probe's id
    with [results[check.id] = result]. *)
Definition runAllChecks (cfg : Config.t) (timestamp : string)
    (net : nat -> FetchOutcome) (order : list nat) : M CheckEntry.t :=
  let checks := buildChecks cfg in
  (for_of checks (fun check => emit (EvFetch (ProbeSpec.url check))) ;;
   let results :=
     foldl (fun (results : gmap string CheckResult.t) i =>
              match checks !! i with
              | Some check =>
                  set_property results (ProbeSpec.id check)
                               (executeCheck check (net i))
              | None => results
              end)
           ∅ order in
   ret (CheckEntry.mk timestamp results))%js.

(* ================================================================= *)
(** ** Daily aggregation (monitor script, [updateDailyFile]) *)

Definition new_summary : DaySummary.t :=
  DaySummary.mk 0 0 0 0 100 0 0.

(** [dailyFile.checks.map(c => c.results[id]?.responseTime)
      .filter(t => t != null && t > 0)]. *)
Definition allResponseTimes (checks : list CheckEntry.t) (id : string)
  : list Z :=
  filter (fun t => 0 < t)
    (omap (fun c => CheckResult.responseTime <$> CheckEntry.results c !! id)
          checks).

(** [[...xs].sort((a, b) => a - b)]. *)
Definition sort_ascending (xs : list Z) : list Z := merge_sort Z.le xs.

(** The statements of one loop iteration that recompute the summary [s]
    of probe [id] from the new [result] and the day's [checks]. *)
Definition summarise (checks : list CheckEntry.t) (id : string)
    (result : CheckResult.t) (s : DaySummary.t) : DaySummary.t :=
  let totalChecks := DaySummary.totalChecks s + 1 in
  let upChecks :=
    match CheckResult.status result with
    | up => DaySummary.upChecks s + 1
    | _ => DaySummary.upChecks s
    end in
  let degradedChecks :=
    match CheckResult.status result with
    | degraded => DaySummary.degradedChecks s + 1
    | _ => DaySummary.degradedChecks s
    end in
  let downChecks :=
    match CheckResult.status result with
    | down => DaySummary.downChecks s + 1
    | _ => DaySummary.downChecks s
    end in
  let uptimePercent :=
    binary64 (binary64 (inject_Z (upChecks + degradedChecks)
                        / inject_Z totalChecks) * 100) in
  let uptimePercent :=
    binary64 (inject_Z (Math_round (binary64 (uptimePercent * 100))) / 100) in
  let allResponseTimes := allResponseTimes checks id in
  let '(avgResponseTime, p95ResponseTime) :=
    if bool_decide (0 < length allResponseTimes)%nat then
      let avg :=
        Math_round (inject_Z (foldl Z.add 0 allResponseTimes)
                    / inject_Z (Z.of_nat (length allResponseTimes))) in
      let sorted := sort_ascending allResponseTimes in
      let p95Index :=
        Math_ceil (inject_Z (Z.of_nat (length sorted)) * (95 # 100)) - 1 in
      (avg, default 0 (sorted !! Z.to_nat (Math_max 0 p95Index)))
    else (DaySummary.avgResponseTime s, DaySummary.p95ResponseTime s) in
  DaySummary.mk totalChecks upChecks degradedChecks downChecks
                uptimePercent avgResponseTime p95ResponseTime.

(** One iteration of the loop over [Object.entries(checkEntry.results)]:
    lazily create the summary, then recompute it in place.

    [dailyFile.summary[id]] is truthy when the summary object has a
    summary of its own under [id], and also when [id] names a member
    inherited from [Object.prototype].  In the second case no summary is
    created: [s] is the inherited object, the statements that follow
    update that object, and the record keeps the summaries it had. *)
Definition update_summary (dailyFile : DailyFile.t)
    (entry : string * CheckResult.t) : DailyFile.t :=
  let '(id, result) := entry in
  let recompute (s : DaySummary.t) :=
    DailyFile.mk
      (DailyFile.date dailyFile)
      (DailyFile.checks dailyFile)
      (<[id := summarise (DailyFile.checks dailyFile) id result s]>
         (DailyFile.summary dailyFile)) in
  match DailyFile.summary dailyFile !! id with
  | Some s => recompute s
  | None =>
      if decide (id ∈ Object_prototype) then dailyFile
      else recompute new_summary
  end.

Definition updateDailyFile (now : Z) (checkEntry : CheckEntry.t) : M unit :=
  let today := isoDate (Day now) in
  let filePath := today +:+ ".json" in
  (present <- fs_existsSync filePath ;;
   dailyFile <-
     (if present then
        (text <- fs_readFileSync filePath ;; lift (JSON_parse text))
      else ret (DailyFile.mk today [] ∅)) ;;
   let dailyFile :=
     DailyFile.mk (DailyFile.date dailyFile)
                  (push (DailyFile.checks dailyFile) checkEntry)
                  (DailyFile.summary dailyFile) in
   let dailyFile :=
     foldl update_summary dailyFile
           (map_to_list (CheckEntry.results checkEntry)) in
   fs_writeFileSync filePath dailyFile)%js.

(* ================================================================= *)
(** ** Retention (monitor script, [cleanupOldData]) *)

Definition cleanupOldData (now : Z) : M unit :=
  (dirExists <- fs_existsSync_dir ;;
   if negb dirExists then ret tt else
   names <- fs_readdirSync ;;
   let files := filter (fun f => endsWith f ".json" = true) names in
   let cutoffStr := isoDate (Day now - 90) in
   for_of files (fun file =>
     let date := replace file ".json" EmptyString in
     if String.ltb date cutoffStr then fs_unlinkSync file else ret tt) ;;
   let yesterdayStr := isoDate (Day now - 1) in
   let yesterdayFile := yesterdayStr +:+ ".json" in
   present <- fs_existsSync yesterdayFile ;;
   if present then
     try_catch
       (text <- fs_readFileSync yesterdayFile ;;
        data <- lift (JSON_parse text) ;;
        if bool_decide (0 < length (DailyFile.checks data))%nat then
          fs_writeFileSync yesterdayFile
            (DailyFile.mk (DailyFile.date data) [] (DailyFile.summary data))
        else ret tt)
       (ret tt)
   else ret tt)%js.

(* ================================================================= *)
(** ** One run (monitor script, [main]) *)

(** What one run reads from its environment. The clock is read once by
    the aggregator and once by the retention step. *)
Record Env : Type := mkEnv {
  timestamp : string;
  net : nat -> FetchOutcome;
  order : list nat;
  updateNow : Z;
  cleanupNow : Z
}.

Definition main (cfg : Config.t) (env : Env) : M unit :=
  (fs_mkdirSync_recursive ;;
   checkEntry <- runAllChecks cfg (timestamp env) (net env) (order env) ;;
   updateDailyFile (updateNow env) checkEntry ;;
   cleanupOldData (cleanupNow env))%js.

(* ================================================================= *)
(** ** Thresholds and colours (constants.ts) *)

Module COLORS.
Definition up : string := "#22C55E".
Definition degraded : string := "#EAB308".
Definition down : string := "#EF4444".
Definition noData : string := "#374151".
Definition uptimeHigh : string := "#22C55E".
Definition uptimeMedHigh : string := "#86EFAC".
Definition uptimeMed : string := "#EAB308".
Definition uptimeMedLow : string := "#F97316".
Definition uptimeLow : string := "#EF4444".
End COLORS.

Definition DAYS_TO_SHOW : Z := 90.

Definition getUptimeColor (percent : Q) : string :=
  if Qle_bool 100 percent then COLORS.uptimeHigh
  else if Qle_bool (995 # 10) percent then COLORS.uptimeMedHigh
  else if Qle_bool 99 percent then COLORS.uptimeMed
  else if Qle_bool 95 percent then COLORS.uptimeMedLow
  else COLORS.uptimeLow.

Definition getStatusFromUptime (percent : Q) : Status :=
  if Qle_bool (995 # 10) percent then up
  else if Qle_bool 95 percent then degraded
  else down.

(* ================================================================= *)
(** ** Reading the records for the status page (data.ts) *)

(** The loop [for (let i = days - 1; i >= 0; i--)] with [n] iterations
    left: the next one has [i = n - 1]. *)
Fixpoint dates_from (n : nat) (today : Z) (dates : list string)
  : list string :=
  match n with
  | O => dates
  | S i => dates_from i today (push dates (isoDate (today - Z.of_nat i)))
  end.

Definition getDatesRange (days : Z) (now : Z) : list string :=
  dates_from (Z.to_nat days) (Day now) [].

Definition loadDailyFile (date : string) : M (option DailyFile.t) :=
  let filePath := date +:+ ".json" in
  (present <- fs_existsSync filePath ;;
   if negb present then ret None else
   try_catch
     (raw <- fs_readFileSync filePath ;;
      file <- lift (JSON_parse raw) ;;
      ret (Some file))
     (ret None))%js.

Definition getLatestCheck (now : Z) : M (option CheckEntry.t) :=
  let today := isoDate (Day now) in
  (file <- loadDailyFile today ;;
   ret (match file with
        | Some f => last (DailyFile.checks f)
        | None => None
        end))%js.

(* ================================================================= *)
(** ** XML escaping (rss.xml.ts, [escapeXml]) *)

(** The double-quote character. *)
Definition dquote : ascii := "034"%char.

(** [s.replace(/c/g, rep)] for a one-character pattern.  A string is
    taken as the sequence of its UTF-8 bytes: the characters replaced
    here are ASCII, and no byte of a multi-byte sequence is. *)
Fixpoint replace_all (s : string) (c : ascii) (rep : string) : string :=
  match s with
  | EmptyString => EmptyString
  | String a s' =>
      if Ascii.eqb a c then rep +:+ replace_all s' c rep
      else String a (replace_all s' c rep)
  end.

Definition escapeXml (str : string) : string :=
  replace_all
    (replace_all
       (replace_all
          (replace_all
             (replace_all str "&" "&amp;")
             "<" "&lt;")
          ">" "&gt;")
       dquote "&quot;")
    "'" "&apos;".

(* ================================================================= *)
(** ** Vocabulary of the specification *)

(** A resolved [fetch] carries the status of an HTTP status line; 0 is
    the status of the network-error response only, for which [fetch]
    rejects instead of resolving. *)
Definition http_outcome (o : FetchOutcome) : Prop :=
  match o with
  | Rejected _ => True
  | Responded _ status _ => status <> 0
  end.

(** The response passes the probe's validation rule, if it has one: the
    body decodes and the named field is the expected string. *)
Definition validation_ok (check : ProbeSpec.t) (body : option json) : Prop :=
  match ProbeSpec.validate check with
  | None => True
  | Some v =>
      exists b, body = Some b /\
        get_property b (Validate.field v)
        = Ok (PValue (JStr (Validate.value v)))
  end.

(** The body does not decode, or the named field is not the expected
    string. *)
Definition validation_fails (v : Validate.t) (body : option json) : Prop :=
  body = None \/
  exists b, body = Some b /\
    get_property b (Validate.field v)
    <> Ok (PValue (JStr (Validate.value v))).

(** Some component of some group is down. *)
Definition some_component_down (groups : list GroupStatus.t) : Prop :=
  exists g c, g ∈ groups /\ c ∈ GroupStatus.components g /\
              ComponentStatus.status c = down.

(** The record the aggregator starts from: a fresh one when the file is
    absent, the stored one when it parses, none when it does not. *)
Definition prior_record (today : string) (c : option FileContent)
  : option DailyFile.t :=
  match c with
  | None => Some (DailyFile.mk today [] ∅)
  | Some (Stored d) => Some d
  | Some Corrupt => None
  end.

(** The record [updateDailyFile] writes when it starts from [d0]. *)
Definition merged (d0 : DailyFile.t) (checkEntry : CheckEntry.t)
  : DailyFile.t :=
  foldl update_summary
        (DailyFile.mk (DailyFile.date d0)
                      (push (DailyFile.checks d0) checkEntry)
                      (DailyFile.summary d0))
        (map_to_list (CheckEntry.results checkEntry)).

(** Rounding to two decimals. *)
Definition round2 (x : Q) : Q := (inject_Z (Math_round (x * 100)) / 100)%Q.

(** An entry as a check run builds it: its results were stored by
    assignment, which never creates a property named "__proto__". *)
Definition entry_of_run (checkEntry : CheckEntry.t) : Prop :=
  CheckEntry.results checkEntry !! "__proto__" = None.

(** The probe [id] has, or gets, a summary of its own in the record: it
    already has one, or its id is not the name of a member that objects
    inherit. *)
Definition summarised (d0 : DailyFile.t) (id : string) : Prop :=
  is_Some (DailyFile.summary d0 !! id) \/ id ∉ Object_prototype.

(** The response times recorded for [id] in the entries of the day, in
    order: an entry contributes when it has a result for [id] and the
    response time of that result is strictly positive. *)
Fixpoint recorded_positive (checks : list CheckEntry.t) (id : string)
  : list Z :=
  match checks with
  | [] => []
  | c :: rest =>
      match CheckEntry.results c !! id with
      | Some r =>
          if 0 <? CheckResult.responseTime r
          then CheckResult.responseTime r :: recorded_positive rest id
          else recorded_positive rest id
      | None => recorded_positive rest id
      end
  end.

(** The invariant of a day summary: the three outcome counters are
    counts and add up to [totalChecks], and [uptimePercent] is a
    percentage. *)
Definition summary_inv (s : DaySummary.t) : Prop :=
  0 <= DaySummary.upChecks s /\
  0 <= DaySummary.degradedChecks s /\
  0 <= DaySummary.downChecks s /\
  DaySummary.upChecks s + DaySummary.degradedChecks s
    + DaySummary.downChecks s = DaySummary.totalChecks s /\
  (0 <= DaySummary.uptimePercent s)%Q /\
  (DaySummary.uptimePercent s <= 100)%Q.

Definition sum_Z (xs : list Z) : Z := foldr Z.add 0 xs.

(** [a] is the arithmetic mean of [samples] rounded to the nearest
    integer (halves upwards): [a - 1/2 <= sum / n < a + 1/2]. *)
Definition is_rounded_mean (samples : list Z) (a : Z) : Prop :=
  let n := Z.of_nat (length samples) in
  2 * n * a - n <= 2 * sum_Z samples < 2 * n * a + n.

(** Index [ceil(0.95 * n) - 1], clamped to 0. *)
Definition p95_index (n : nat) : nat :=
  Z.to_nat (Z.max 0 (Qceiling ((95 # 100) * inject_Z (Z.of_nat n)) - 1)).

(** [p] is the element at the 95th-percentile index of [samples] sorted
    ascending. *)
Definition is_p95 (samples : list Z) (p : Z) : Prop :=
  exists sorted : list Z,
    sorted ≡ₚ samples /\ Sorted Z.le sorted /\
    sorted !! p95_index (length samples) = Some p.

(** Days whose ISO date has a four-digit year: 0000-01-01 to
    9999-12-31. *)
Definition four_digit_year (day : Z) : Prop :=
  -719528 <= day <= 2932896.

(** A file the retention loop deletes: its name ends in ".json" and,
    with the first ".json" removed, sorts before the cutoff date. *)
Definition expired (cutoffStr file : string) : bool :=
  endsWith file ".json"
  && String.ltb (replace file ".json" EmptyString) cutoffStr.

(** A record with its entry sequence cleared; an unreadable file is left
    alone. *)
Definition compacted (c : FileContent) : FileContent :=
  match c with
  | Corrupt => Corrupt
  | Stored d =>
      Stored (DailyFile.mk (DailyFile.date d) [] (DailyFile.summary d))
  end.

(* ================================================================= *)
(** ** Auxiliary definitions for the proofs *)

(** [check_from n P lo] tests [P] on the [n] integers from [lo] on. *)
Fixpoint check_from (n : positive) (P : Z -> bool) (lo : Z) : bool :=
  match n with
  | xH => P lo
  | xO p => check_from p P lo && check_from p P (lo + Z.pos p)
  | xI p =>
      P lo && check_from p P (lo + 1) && check_from p P (lo + 1 + Z.pos p)
  end.

(** A date as the number its digits spell: order on these numbers is
    calendar order. *)
Definition date_key (c : Z * Z * Z) : Z :=
  let '(y, m, d) := c in y * 10000 + m * 100 + d.

(** Within a 400-year era: month and day are in range and the next day
    has a larger key. *)
Definition era_day_ok (doe : Z) : bool :=
  let '(y, m, d) := civil_in_era doe in
  let next :=
    if doe =? 146096 then date_key (civil_in_era 0) + 4000000
    else date_key (civil_in_era (doe + 1)) in
  (0 <=? y) && (y <=? 400) && (1 <=? m) && (m <=? 12)
  && (1 <=? d) && (d <=? 31) && (date_key (y, m, d) <? next).

(** One completion of [runAllChecks]: the result of probe [i] is stored
    under its id. *)
Definition store_result (checks : list ProbeSpec.t)
    (net : nat -> FetchOutcome) (results : gmap string CheckResult.t)
    (i : nat) : gmap string CheckResult.t :=
  match checks !! i with
  | Some check =>
      set_property results (ProbeSpec.id check) (executeCheck check (net i))
  | None => results
  end.

(** The summary the record holds under [id] after the iteration of
    [update_summary] for [id], from the one it held before. *)
Definition summary_after (checks : list CheckEntry.t) (id : string)
    (r : CheckResult.t) (prior : option DaySummary.t)
  : option DaySummary.t :=
  match prior with
  | Some s => Some (summarise checks id r s)
  | None =>
      if decide (id ∈ Object_prototype) then None
      else Some (summarise checks id r new_summary)
  end.

(** The value [summarise] stores as [uptimePercent] for [a] good checks
    out of [t]. *)
Definition percentage (a t : Z) : Q :=
  binary64
    (inject_Z
       (Math_round
          (binary64 (binary64 (binary64 (inject_Z a / inject_Z t) * 100) * 100)))
     / 100).

(** The record of [date] as the status page reads it: none when the
    directory or the file is missing or the file is unreadable. *)
Definition readable_record (w : World) (date : string)
  : option DailyFile.t :=
  match checks_dir w with
  | Some dir =>
      match dir !! (date +:+ ".json") with
      | Some (Stored d) => Some d
      | _ => None
      end
  | None => None
  end.

(** The entity standing for one character in escaped XML text. *)
Definition escape_char (c : ascii) : string :=
  if Ascii.eqb c "&" then "&amp;"
  else if Ascii.eqb c "<" then "&lt;"
  else if Ascii.eqb c ">" then "&gt;"
  else if Ascii.eqb c dquote then "&quot;"
  else if Ascii.eqb c "'" then "&apos;"
  else String c EmptyString.

(** Character-by-character escaping. *)
Fixpoint escape_each (s : string) : string :=
  match s with
  | EmptyString => EmptyString
  | String c s' => escape_char c +:+ escape_each s'
  end.

(** Reading escaped text back: the five entities become their
    characters again. [fuel] bounds the number of characters read. *)
Fixpoint unescape (fuel : nat) (s : string) : string :=
  match fuel with
  | O => s
  | S fuel' =>
      match s with
      | EmptyString => EmptyString
      | String c s' =>
          if String.prefix "&amp;" s
          then String "&" (unescape fuel' (string_drop 5 s))
          else if String.prefix "&lt;" s
          then String "<" (unescape fuel' (string_drop 4 s))
          else if String.prefix "&gt;" s
          then String ">" (unescape fuel' (string_drop 4 s))
          else if String.prefix "&quot;" s
          then String dquote (unescape fuel' (string_drop 6 s))
          else if String.prefix "&apos;" s
          then String "'" (unescape fuel' (string_drop 6 s))
          else String c (unescape fuel' s')
      end
  end.

(** No [<], [>], quote or apostrophe occurs in [s]. *)
Fixpoint markup_free (s : string) : Prop :=
  match s with
  | EmptyString => True
  | String c s' =>
      c <> "<"%char /\ c <> ">"%char /\ c <> dquote /\ c <> "'"%char
      /\ markup_free s'
  end.

Fixpoint no_dot (s : string) : Prop :=
  match s with
  | EmptyString => True
  | String c s' => c <> "."%char /\ no_dot s'
  end.

(* ================================================================= *)
(** ** Sample data *)

(** A configuration with two probes. *)
Definition sample_config : Config.t :=
  Config.mk "https://api.example" "37.98" "23.72"
    [GroupConfig.mk "core" "Core" "Core services"
       [ComponentConfig.mk "forecast" "Forecast" (Some "/forecast") None
                           (Some true) (Some 8000) None None;
        ComponentConfig.mk "health" "Health" (Some "/health") None
                           None None None None]]
    [].

(** A configuration whose two components share the id "api". *)
Definition duplicate_config : Config.t :=
  Config.mk "https://api.example" "37.98" "23.72"
    [GroupConfig.mk "core" "Core" "Core services"
       [ComponentConfig.mk "api" "Forecast" (Some "/forecast") None
                           (Some true) (Some 8000) None None;
        ComponentConfig.mk "api" "Health" (Some "/health") None
                           None None None None]]
    [].

(** 2026-11-02T12:00:00Z. *)
Definition sample_now : Z := 1793620800000.

Definition sample_env : Env :=
  mkEnv "2026-11-02T12:00:00.000Z"
        (fun _ => Responded 120 200 None) [0%nat; 1%nat]
        sample_now sample_now.

(** A checks directory whose record of 2026-11-02 is unreadable. *)
Definition corrupt_today : World :=
  mkWorld (Some {["2026-11-02.json" := Corrupt]}) [].

(** A configuration one of whose probes has the id "constructor". *)
Definition constructor_config : Config.t :=
  Config.mk "https://api.example" "37.98" "23.72"
    [GroupConfig.mk "core" "Core" "Core services"
       [ComponentConfig.mk "constructor" "Forecast" (Some "/forecast") None
                           (Some true) (Some 8000) None None;
        ComponentConfig.mk "health" "Health" (Some "/health") None
                           None None None None]]
    [].

(** The entry the run of [constructor_config] records. *)
Definition constructor_entry : CheckEntry.t :=
  CheckEntry.mk "2026-11-02T12:00:00.000Z"
    {["constructor" := CheckResult.mk up 120 200;
      "health" := CheckResult.mk up 120 200]}.

(** A day with one recorded run, and the entry of a second run. *)
Definition first_record : DailyFile.t :=
  DailyFile.mk "2026-11-02"
    [CheckEntry.mk "2026-11-02T11:55:00.000Z"
       {["api" := CheckResult.mk up 120 200]}]
    {["api" := DaySummary.mk 1 1 0 0 100 120 120]}.

Definition first_world : World :=
  mkWorld (Some {["2026-11-02.json" := Stored first_record]}) [].

Definition second_entry : CheckEntry.t :=
  CheckEntry.mk "2026-11-02T12:00:00.000Z"
    {["api" := CheckResult.mk down 10002 0]}.

(** A day with 159 recorded runs of one probe, 86 of them up, and the
    entry of the 160th run. *)
Definition tie_record : DailyFile.t :=
  DailyFile.mk "2026-11-02"
    (replicate 86 (CheckEntry.mk "t" {["api" := CheckResult.mk up 120 200]})
     ++ replicate 73
          (CheckEntry.mk "t" {["api" := CheckResult.mk down 10002 0]}))
    {["api" := DaySummary.mk 159 86 0 73 (binary64 (5409 # 100)) 4657 10002]}.

Definition tie_world : World :=
  mkWorld (Some {["2026-11-02.json" := Stored tie_record]}) [].

Definition tie_entry : CheckEntry.t :=
  CheckEntry.mk "2026-11-02T12:00:00.000Z"
    {["api" := CheckResult.mk up 120 200]}.

(** The summary of the probe after that run: 87 good checks out of 160,
    and the double nearest to 54.37 as its percentage. *)
Definition tie_summary : DaySummary.t :=
  DaySummary.mk 160 87 0 73 (binary64 (5437 # 100)) 4629 10002.

(** A day with five recorded runs of two probes, and the entry of a
    sixth run. *)
Definition five_record : DailyFile.t :=
  DailyFile.mk "2026-11-02"
    [CheckEntry.mk "t1" {["api" := CheckResult.mk up 100 200;
                          "cdn" := CheckResult.mk up 40 200]};
     CheckEntry.mk "t2" {["api" := CheckResult.mk up 120 200]};
     CheckEntry.mk "t3" {["api" := CheckResult.mk down 0 0]};
     CheckEntry.mk "t4" {["api" := CheckResult.mk up 110 200]};
     CheckEntry.mk "t5" {["api" := CheckResult.mk up 500 200]}]
    {["api" := DaySummary.mk 5 4 0 1 80 208 500;
      "cdn" := DaySummary.mk 1 1 0 0 100 40 40]}.

Definition five_world : World :=
  mkWorld (Some {["2026-11-02.json" := Stored five_record]}) [].

Definition sixth_entry : CheckEntry.t :=
  CheckEntry.mk "t6" {["api" := CheckResult.mk up 105 200;
                       "cdn" := CheckResult.mk up 60 200]}.

(* ================================================================= *)
(** * Properties *)

(** ** Numbers *)

Lemma pow2_pos e : (0 < pow2 e)%Q.
Proof. apply Qpower_0_lt. reflexivity. Qed.

Lemma pow2_add a b : (pow2 (a + b) == pow2 a * pow2 b)%Q.
Proof. apply Qpower_plus. discriminate. Qed.

Lemma pow2_le a b : a <= b -> (pow2 a <= pow2 b)%Q.
Proof. intros H. apply Qpower_le_compat_l; [exact H | discriminate]. Qed.

Lemma pow2_lt_inv a b : (pow2 a < pow2 b)%Q -> a < b.
Proof. intros H. apply (Qpower_lt_compat_l_inv 2); [exact H | reflexivity]. Qed.

Lemma pow2_nonneg_exp k : 0 <= k -> (pow2 k == inject_Z (2 ^ k))%Q.
Proof. intros H. unfold pow2. rewrite Zpower_Qpower by exact H. reflexivity. Qed.

Lemma round_half_even_bounds x :
  (inject_Z (round_half_even x) - (1 # 2) <= x
   /\ x <= inject_Z (round_half_even x) + (1 # 2))%Q.
Proof.
  unfold round_half_even.
  pose proof (Qfloor_le x) as Hlo. pose proof (Qlt_floor x) as Hhi.
  rewrite inject_Z_plus in Hhi. change (inject_Z 1) with 1%Q in Hhi.
  destruct (Qcompare_spec (x - inject_Z (Qfloor x)) (1 # 2)) as [E|E|E].
  - destruct (Z.even (Qfloor x)); rewrite ?inject_Z_plus;
      change (inject_Z 1) with 1%Q; lra.
  - lra.
  - rewrite inject_Z_plus. change (inject_Z 1) with 1%Q. lra.
Qed.

Lemma round_half_even_floor x :
  Qfloor x <= round_half_even x <= Qfloor x + 1.
Proof.
  unfold round_half_even.
  destruct (_ ?= _)%Q; [destruct (Z.even _) | |]; lia.
Qed.

Lemma round_half_even_mono x y :
  (x <= y)%Q -> round_half_even x <= round_half_even y.
Proof.
  intros Hxy.
  pose proof (Qfloor_resp_le _ _ Hxy) as Hf.
  pose proof (round_half_even_floor x) as Hx.
  pose proof (round_half_even_floor y) as Hy.
  destruct (Z.eq_dec (Qfloor x) (Qfloor y)) as [E | NE]; [| lia].
  unfold round_half_even. rewrite <- E.
  destruct (Qcompare_spec (x - inject_Z (Qfloor x)) (1 # 2)) as [Ex|Ex|Ex];
    destruct (Qcompare_spec (y - inject_Z (Qfloor x)) (1 # 2)) as [Ey|Ey|Ey];
    try lra; try lia; destruct (Z.even (Qfloor x)); lia.
Qed.

Lemma round_half_even_inject z : round_half_even (inject_Z z) = z.
Proof.
  unfold round_half_even. rewrite Qfloor_Z.
  destruct (Qcompare_spec (inject_Z z - inject_Z z) (1 # 2)) as [E|E|E];
    [lra | reflexivity | lra].
Qed.

Lemma exponent_spec x :
  (0 < x)%Q -> (pow2 (exponent x) <= x /\ x < pow2 (exponent x + 1))%Q.
Proof.
  intros Hx. destruct x as [n d].
  assert (Hn : 0 < n) by (unfold Qlt in Hx; simpl in Hx; lia).
  unfold exponent. cbn [Qnum Qden].
  pose proof (Z.log2_spec n Hn) as [Hn1 Hn2].
  pose proof (Z.log2_spec (Z.pos d) (Pos2Z.is_pos d)) as [Hd1 Hd2].
  pose proof (Z.log2_nonneg n) as Ln.
  pose proof (Z.log2_nonneg (Z.pos d)) as Ld.
  set (ln := Z.log2 n) in *. set (ld := Z.log2 (Z.pos d)) in *.
  rewrite Z.pow_succ_r in Hn2, Hd2 by assumption.
  assert (Ha : 0 < 2 ^ ln) by (apply Z.pow_pos_nonneg; lia).
  assert (Hb : 0 < 2 ^ ld) by (apply Z.pow_pos_nonneg; lia).
  assert (Hq : (pow2 (ln - ld) == inject_Z (2 ^ ln) / inject_Z (2 ^ ld))%Q).
  { unfold pow2. rewrite Qpower_minus by discriminate.
    rewrite <- !pow2_nonneg_exp by assumption. reflexivity. }
  assert (Hx' : (n # d == inject_Z n / inject_Z (Z.pos d))%Q)
    by apply Qmake_Qdiv.
  generalize dependent (2 ^ ln). generalize dependent (2 ^ ld).
  intros b Hd1 Hd2 Hb a Hn1 Hn2 Ha Hq.
  assert (Hbq : (0 < inject_Z b)%Q) by (rewrite <- (Zlt_Qlt 0); exact Hb).
  assert (Hdq : (0 < inject_Z (Z.pos d))%Q) by (rewrite <- (Zlt_Qlt 0); lia).
  assert (Hup : (n # d < 2 * (inject_Z a / inject_Z b))%Q).
  { rewrite Hx'. 
    apply Qlt_shift_div_r; [exact Hdq |].
    setoid_replace (2 * (inject_Z a / inject_Z b) * inject_Z (Z.pos d))%Q
      with (inject_Z (2 * a * Z.pos d) / inject_Z b)%Q
      using relation Qeq by (rewrite !inject_Z_mult; field; lra).
    apply Qlt_shift_div_l; [exact Hbq |].
    rewrite <- inject_Z_mult, <- Zlt_Qlt. nia. }
  assert (Hlo : (inject_Z a / inject_Z b / 2 <= n # d)%Q).
  { rewrite Hx'.
    apply Qle_shift_div_l; [exact Hdq |].
    setoid_replace (inject_Z a / inject_Z b / 2 * inject_Z (Z.pos d))%Q
      with (inject_Z (a * Z.pos d) / inject_Z (2 * b))%Q
      using relation Qeq by (rewrite !inject_Z_mult; field; lra).
    apply Qle_shift_div_r; [rewrite <- (Zlt_Qlt 0); lia |].
    rewrite <- inject_Z_mult, <- Zle_Qle. nia. }
  destruct (Qle_bool (pow2 (ln - ld)) (n # d)) eqn:T.
  - apply Qle_bool_iff in T. split; [exact T |].
    rewrite pow2_add, Hq. change (pow2 1) with 2%Q. lra.
  - assert (T' : (n # d < pow2 (ln - ld))%Q).
    { apply Qnot_le_lt. intros C. apply Qle_bool_iff in C. congruence. }
    replace (ln - ld - 1 + 1) with (ln - ld) by lia. split; [| exact T'].
    replace (ln - ld - 1) with ((ln - ld) + -1) by lia.
    rewrite pow2_add, Hq. change (pow2 (-1)) with (/ 2)%Q.
    exact Hlo.
Qed.

Lemma pow2_52 e : (pow2 e == 4503599627370496 * pow2 (e - 52))%Q.
Proof.
  replace e with (52 + (e - 52)) at 1 by lia. rewrite pow2_add.
  apply Qmult_comp; [vm_compute; reflexivity | reflexivity].
Qed.

Lemma pow2_53 e : (pow2 (e + 1) == 9007199254740992 * pow2 (e - 52))%Q.
Proof.
  replace (e + 1) with (53 + (e - 52)) by lia. rewrite pow2_add.
  apply Qmult_comp; [vm_compute; reflexivity | reflexivity].
Qed.

(** The scaled significand lies in [[2^52, 2^53]]. *)
Lemma significand_bounds x :
  (0 < x)%Q ->
  let u := pow2 (exponent x - 52) in
  let m := round_half_even (x / u) in
  (x / u * u == x)%Q /\
  4503599627370496 <= m <= 9007199254740992.
Proof.
  intros Hx u m.
  pose proof (pow2_pos (exponent x - 52)) as Hu. fold u in Hu.
  destruct (exponent_spec x Hx) as [Hlo Hhi].
  rewrite pow2_52 in Hlo. rewrite pow2_53 in Hhi. fold u in Hlo, Hhi.
  split; [field; lra |].
  split.
  - rewrite <- (round_half_even_inject 4503599627370496).
    apply round_half_even_mono.
    apply Qle_shift_div_l; [exact Hu | exact Hlo].
  - rewrite <- (round_half_even_inject 9007199254740992).
    apply round_half_even_mono.
    apply Qle_shift_div_r; [exact Hu | apply Qlt_le_weak; exact Hhi].
Qed.

Lemma nearest_range x :
  (0 < x)%Q ->
  (pow2 (exponent x) <= nearest x /\ nearest x <= pow2 (exponent x + 1))%Q.
Proof.
  intros Hx. destruct (significand_bounds x Hx) as [_ [Hlo Hhi]].
  rewrite pow2_52, pow2_53. unfold nearest.
  pose proof (pow2_pos (exponent x - 52)) as Hu.
  set (u := pow2 (exponent x - 52)) in *.
  set (m := round_half_even (x / u)) in *.
  rewrite Zle_Qle in Hlo, Hhi.
  change (inject_Z 4503599627370496) with 4503599627370496%Q in Hlo.
  change (inject_Z 9007199254740992) with 9007199254740992%Q in Hhi.
  split; apply Qmult_le_compat_r; lra.
Qed.

(** Rounding moves a positive number by at most half a unit in the
    last place, that is by a relative [2^-53]. *)
Lemma nearest_error x :
  (0 < x)%Q ->
  (x - x * (1 # 9007199254740992) <= nearest x
   /\ nearest x <= x + x * (1 # 9007199254740992))%Q.
Proof.
  intros Hx. destruct (significand_bounds x Hx) as [Hm _].
  destruct (exponent_spec x Hx) as [Hlo _]. rewrite pow2_52 in Hlo.
  unfold nearest.
  pose proof (pow2_pos (exponent x - 52)) as Hu.
  set (u := pow2 (exponent x - 52)) in *.
  destruct (round_half_even_bounds (x / u)) as [B1 B2].
  set (m := inject_Z (round_half_even (x / u))) in *.
  assert (E1 : ((m - (1 # 2)) * u <= x / u * u)%Q)
    by (apply Qmult_le_compat_r; lra).
  assert (E2 : (x / u * u <= (m + (1 # 2)) * u)%Q)
    by (apply Qmult_le_compat_r; lra).
  rewrite Hm in E1, E2. lra.
Qed.

Lemma nearest_mono x y :
  (0 < x)%Q -> (x <= y)%Q -> (nearest x <= nearest y)%Q.
Proof.
  intros Hx Hxy. assert (Hy : (0 < y)%Q) by lra.
  destruct (exponent_spec x Hx) as [Hx1 Hx2].
  destruct (exponent_spec y Hy) as [Hy1 Hy2].
  assert (He : exponent x < exponent y + 1) by (apply pow2_lt_inv; lra).
  destruct (Z.eq_dec (exponent x) (exponent y)) as [E | NE].
  - unfold nearest. rewrite E.
    pose proof (pow2_pos (exponent y - 52)) as Hu.
    apply Qmult_le_compat_r; [| lra].
    rewrite <- Zle_Qle. apply round_half_even_mono.
    apply Qmult_le_compat_r; [exact Hxy |].
    apply Qlt_le_weak, Qinv_lt_0_compat, Hu.
  - destruct (nearest_range x Hx) as [_ Ux].
    destruct (nearest_range y Hy) as [Ly _].
    pose proof (pow2_le (exponent x + 1) (exponent y) ltac:(lia)).
    lra.
Qed.

Lemma binary64_zero x : (x == 0)%Q -> binary64 x = 0%Q.
Proof.
  intros H. unfold binary64. destruct x as [[| p | p] d];
    [reflexivity | discriminate H | discriminate H].
Qed.

Lemma binary64_positive x : (0 < x)%Q -> (binary64 x == nearest x)%Q.
Proof.
  intros H. unfold binary64. rewrite Qred_correct.
  destruct x as [[| p | p] d]; [discriminate H | reflexivity | discriminate H].
Qed.

Lemma binary64_nonneg x : (0 <= x)%Q -> (0 <= binary64 x)%Q.
Proof.
  intros H. destruct (Qlt_le_dec 0 x) as [P | N].
  - rewrite (binary64_positive x P).
    destruct (nearest_range x P) as [L _].
    pose proof (pow2_pos (exponent x)). lra.
  - rewrite (binary64_zero x) by lra. lra.
Qed.

Lemma binary64_mono x y :
  (0 <= x)%Q -> (x <= y)%Q -> (binary64 x <= binary64 y)%Q.
Proof.
  intros Hx Hxy. destruct (Qlt_le_dec 0 x) as [P | N].
  - rewrite (binary64_positive x P), (binary64_positive y) by lra.
    apply nearest_mono; assumption.
  - rewrite (binary64_zero x) by lra. apply binary64_nonneg. lra.
Qed.

Lemma binary64_error x :
  (0 <= x)%Q ->
  (x - x * (1 # 9007199254740992) <= binary64 x
   /\ binary64 x <= x + x * (1 # 9007199254740992))%Q.
Proof.
  intros Hx. destruct (Qlt_le_dec 0 x) as [P | N].
  - rewrite (binary64_positive x P). apply nearest_error, P.
  - rewrite (binary64_zero x) by lra. lra.
Qed.

(** ** Check execution *)

Lemma includes_true codes c : includes codes c = true <-> c ∈ codes.
Proof. unfold includes. apply bool_decide_eq_true. Qed.

Lemma strict_equals_string_true p v :
  strict_equals_string p v = true <-> p = PValue (JStr v).
Proof.
  destruct p as [|[]]; simpl; try (split; [discriminate|congruence]).
  rewrite String.eqb_eq. split; congruence.
Qed.

(** C3. Whatever the probe and whatever the network does to it (with a
    resolved response carrying a genuine HTTP status), a result whose
    [statusCode] is 0 has status [down]. *)
Theorem statusCode_zero_is_down (check : ProbeSpec.t) (o : FetchOutcome) :
  http_outcome o ->
  CheckResult.statusCode (executeCheck check o) = 0 ->
  CheckResult.status (executeCheck check o) = down.
Proof.
  destruct o as [elapsed|elapsed status body]; simpl; [done|].
  intros Hhttp.
  destruct (negb _ || negb _); simpl; [done|].
  intros Hzero. contradiction.
Qed.

Lemma statusCode_zero_is_down_witness :
  CheckResult.status
    (executeCheck (ProbeSpec.mk "api" "API" "https://x/health" 10000 None [200])
                  (Rejected 10003)) = down.
Proof.
  apply statusCode_zero_is_down; [exact I | reflexivity].
Defined.

(** C6. A response with an accepted status code that passes the
    configured validation is [degraded] when its elapsed time is strictly
    more than half the probe's timeout, and [up] otherwise. *)
Theorem latency_classification (check : ProbeSpec.t)
    (elapsed status : Z) (body : option json) :
  status ∈ ProbeSpec.expectedStatusCodes check ->
  validation_ok check body ->
  CheckResult.status (executeCheck check (Responded elapsed status body))
  = if bool_decide (ProbeSpec.timeout check < 2 * elapsed)
    then degraded else up.
Proof.
  intros Hcode Hval. unfold executeCheck.
  apply includes_true in Hcode. rewrite Hcode.
  assert (Hpass :
    match ProbeSpec.validate check with
    | Some v =>
        match body with
        | Some b =>
            match get_property b (Validate.field v) with
            | Ok p => strict_equals_string p (Validate.value v)
            | Throw _ => false
            end
        | None => false
        end
    | None => true
    end = true).
  { unfold validation_ok in Hval.
    destruct (ProbeSpec.validate check) as [v|]; [|done].
    destruct Hval as (b & -> & ->). by apply strict_equals_string_true. }
  cbv zeta. simpl (if true then _ else _). rewrite Hpass. simpl.
  destruct (Qle_bool _ _) eqn:Hle; simpl.
  - apply Qle_bool_iff in Hle. unfold Qle in Hle; simpl in Hle.
    rewrite bool_decide_eq_false_2; [done|lia].
  - rewrite bool_decide_eq_true_2; [done|].
    destruct (Z_lt_dec (ProbeSpec.timeout check) (2 * elapsed)); [done|].
    assert (Qle_bool (inject_Z elapsed)
              (inject_Z (ProbeSpec.timeout check) * (1 # 2)) = true);
      [|congruence].
    apply Qle_bool_iff. unfold Qle; simpl. lia.
Qed.

Lemma latency_classification_witness :
  let check := ProbeSpec.mk "api" "API" "https://x/health" 10000 None [200] in
  CheckResult.status (executeCheck check (Responded 6000 200 None)) = degraded
  /\ CheckResult.status (executeCheck check (Responded 3000 200 None)) = up.
Proof.
  split.
  - apply (latency_classification
             (ProbeSpec.mk "api" "API" "https://x/health" 10000 None [200])
             6000 200 None); [simpl; set_solver | exact I].
  - apply (latency_classification
             (ProbeSpec.mk "api" "API" "https://x/health" 10000 None [200])
             3000 200 None); [simpl; set_solver | exact I].
Defined.

(** C7. With a validation rule and an accepted status code, a body that
    does not decode or whose named field is not the expected string gives
    status [down], and the result keeps the HTTP status code. *)
Theorem validation_failure_is_down (check : ProbeSpec.t) (v : Validate.t)
    (elapsed status : Z) (body : option json) :
  ProbeSpec.validate check = Some v ->
  status ∈ ProbeSpec.expectedStatusCodes check ->
  validation_fails v body ->
  executeCheck check (Responded elapsed status body)
  = CheckResult.mk down elapsed status.
Proof.
  intros Hv Hcode Hfail. unfold executeCheck.
  apply includes_true in Hcode. rewrite Hcode, Hv.
  destruct Hfail as [->|(b & -> & Hne)]; [done|].
  destruct (get_property b (Validate.field v)) as [p|e] eqn:Hp; [|done].
  destruct (strict_equals_string p (Validate.value v)) eqn:Heq; [|done].
  apply strict_equals_string_true in Heq. congruence.
Qed.

Lemma validation_failure_is_down_witness :
  executeCheck
    (ProbeSpec.mk "api" "API" "https://x/health" 10000
                  (Some (Validate.mk "ok" "true")) [200])
    (Responded 120 200 (Some (JObj [("ok", JStr "false")])))
  = CheckResult.mk down 120 200.
Proof.
  apply (validation_failure_is_down _ (Validate.mk "ok" "true"));
    [reflexivity | simpl; set_solver |].
  right. eexists. split; [reflexivity|]. simpl. discriminate.
Defined.

(** ** Status page *)

Lemma hasDown_spec (groups : list GroupStatus.t) :
  existsb (fun g =>
    existsb (fun c => bool_decide (ComponentStatus.status c = down))
            (GroupStatus.components g)) groups = true
  <-> some_component_down groups.
Proof.
  unfold some_component_down. rewrite existsb_exists. split.
  - intros (g & Hg & Hc). apply existsb_exists in Hc as (c & Hc & Hd).
    exists g, c. rewrite !list_elem_of_In. by apply bool_decide_eq_true in Hd.
  - intros (g & c & Hg & Hc & Hd). exists g.
    rewrite <- list_elem_of_In. split; [done|].
    apply existsb_exists. exists c. rewrite <- list_elem_of_In.
    split; [done|]. by apply bool_decide_eq_true.
Qed.

(** C10. The overall status is never [degraded]; it is [down] exactly
    when some component of some group is [down], and otherwise [up] with
    the label "All Systems Operational". *)
Theorem overall_status_never_degraded (groups : list GroupStatus.t) :
  OverallStatus.status (getOverallStatus groups) <> degraded
  /\ (OverallStatus.status (getOverallStatus groups) = down
      <-> some_component_down groups)
  /\ (~ some_component_down groups ->
      getOverallStatus groups
      = OverallStatus.mk up "All Systems Operational").
Proof.
  unfold getOverallStatus. rewrite <- hasDown_spec.
  destruct (existsb _ groups); simpl; repeat split; try done.
Qed.

(** ** Probe resolution and the check run *)

Lemma foldl_push {A B : Type} (f : B -> A) (xs : list B) (acc : list A) :
  foldl (fun acc x => push acc (f x)) acc xs = acc ++ map f xs.
Proof.
  revert acc. induction xs as [|x xs IH]; intros acc; simpl.
  - by rewrite app_nil_r.
  - rewrite IH. unfold push. by rewrite <- app_assoc.
Qed.

Lemma foldl_push_nested {A B C : Type} (f : C -> A) (inner : B -> list C)
    (xs : list B) (acc : list A) :
  foldl (fun acc x => foldl (fun acc y => push acc (f y)) acc (inner x)) acc xs
  = acc ++ flat_map (fun x => map f (inner x)) xs.
Proof.
  revert acc. induction xs as [|x xs IH]; intros acc; simpl.
  - by rewrite app_nil_r.
  - rewrite IH, foldl_push. by rewrite <- app_assoc.
Qed.

(** [buildChecks] is the flattening of the configuration: the components
    of every group in order, then the external dependencies. *)
Lemma buildChecks_flat (cfg : Config.t) :
  buildChecks cfg
  = flat_map (fun g => map (component_check cfg) (GroupConfig.components g))
             (Config.groups cfg)
    ++ map external_check (Config.external cfg).
Proof.
  unfold buildChecks. by rewrite foldl_push, foldl_push_nested.
Qed.

Lemma for_of_emit {A : Type} (f : A -> Event) (xs : list A) (w : World) :
  for_of xs (fun x => emit (f x)) w
  = (Ok tt, mkWorld (checks_dir w) (events w ++ map f xs)).
Proof.
  revert w. induction xs as [|x xs IH]; intros w; simpl.
  - rewrite app_nil_r. by destruct w.
  - unfold bind, emit at 1. rewrite IH. simpl.
    unfold push. by rewrite <- app_assoc.
Qed.

Lemma set_property_lookup {A : Type} (obj : gmap string A)
    (key : string) (value : A) (id : string) (x : A) :
  set_property obj key value !! id = Some x ->
  obj !! id = Some x \/ (key = id /\ x = value).
Proof.
  unfold set_property. intros H.
  destruct (decide (key = id)) as [-> | Hne].
  - destruct (obj !! id) eqn:E.
    + rewrite lookup_insert_eq in H. right. split; congruence.
    + case_decide.
      * left. congruence.
      * rewrite lookup_insert_eq in H. right. split; congruence.
  - left. destruct (obj !! key); [| case_decide];
      rewrite ?lookup_insert_ne in H by done; done.
Qed.

Lemma lookup_set_property_ne {A : Type} (obj : gmap string A)
    (key : string) (value : A) (id : string) :
  key <> id -> set_property obj key value !! id = obj !! id.
Proof.
  intros Hne. unfold set_property.
  destruct (obj !! key); [| case_decide]; by rewrite ?lookup_insert_ne.
Qed.

Lemma set_property_insert {A : Type} (obj : gmap string A)
    (key : string) (value : A) :
  key <> "__proto__" -> set_property obj key value = <[key := value]> obj.
Proof.
  intros Hne. unfold set_property.
  destruct (obj !! key); [done |]. by rewrite decide_False.
Qed.

Lemma set_property_proto {A : Type} (obj : gmap string A) (value : A) :
  obj !! "__proto__" = None -> set_property obj "__proto__" value = obj.
Proof. intros H. unfold set_property. by rewrite H, decide_True. Qed.

(** The results object after the completions listed in [order]. *)
Lemma results_provenance (checks : list ProbeSpec.t)
    (net : nat -> FetchOutcome) (order : list nat)
    (acc : gmap string CheckResult.t) (id : string) (r : CheckResult.t) :
  foldl (store_result checks net) acc order !! id = Some r ->
  acc !! id = Some r \/
  exists i check, i ∈ order /\ checks !! i = Some check /\
                  ProbeSpec.id check = id /\ r = executeCheck check (net i).
Proof.
  revert acc. induction order as [|i order IH]; intros acc; simpl; [by left|].
  intros H. apply IH in H as [H|(j & check & Hj & Hc & Hid & Hr)].
  - unfold store_result in H.
    destruct (checks !! i) as [check|] eqn:Hc; [|by left].
    apply set_property_lookup in H as [H | [Hid Hr]]; [by left |].
    right. exists i, check. set_solver.
  - right. exists j, check. set_solver.
Qed.

Lemma results_domain (checks : list ProbeSpec.t)
    (net : nat -> FetchOutcome) (order : list nat)
    (acc : gmap string CheckResult.t) (id : string) :
  id <> "__proto__" ->
  is_Some (foldl (store_result checks net) acc order !! id)
  <-> is_Some (acc !! id) \/
      exists i check, i ∈ order /\ checks !! i = Some check /\
                      ProbeSpec.id check = id.
Proof.
  intros Hid.
  revert acc. induction order as [|i order IH]; intros acc; simpl.
  - split; [by left|]. intros [H|(i & c & Hi & _)]; [done|]. by inversion Hi.
  - rewrite IH. clear IH. unfold store_result at 1.
    destruct (checks !! i) as [check|] eqn:Hc.
    + destruct (decide (ProbeSpec.id check = id)) as [Heq | Hne].
      * rewrite set_property_insert by congruence.
        rewrite Heq, lookup_insert_eq.
        split; [|intros _; left; by eexists].
        intros _. right. exists i, check. set_solver.
      * rewrite lookup_set_property_ne by done. split.
        -- intros [H|(j & c & Hj & Hcj & Hidj)]; [by left|].
           right. exists j, c. set_solver.
        -- intros [H|(j & c & Hj & Hcj & Hidj)]; [by left|].
           apply elem_of_cons in Hj as [->|Hj].
           ++ rewrite Hc in Hcj. injection Hcj as <-. done.
           ++ right. exists j, c. done.
    + split.
      * intros [H|(j & c & Hj & Hcj & Hidj)]; [by left|].
        right. exists j, c. set_solver.
      * intros [H|(j & c & Hj & Hcj & Hidj)]; [by left|].
        apply elem_of_cons in Hj as [->|Hj]; [congruence|].
        right. exists j, c. done.
Qed.

(** No completion creates a property named "__proto__". *)
Lemma results_no_proto (checks : list ProbeSpec.t)
    (net : nat -> FetchOutcome) (order : list nat)
    (acc : gmap string CheckResult.t) :
  acc !! "__proto__" = None ->
  foldl (store_result checks net) acc order !! "__proto__" = None.
Proof.
  revert acc. induction order as [|i order IH]; intros acc Hacc; simpl;
    [exact Hacc |].
  apply IH. unfold store_result.
  destruct (checks !! i) as [check|]; [| exact Hacc].
  destruct (decide (ProbeSpec.id check = "__proto__")) as [-> | Hne].
  - by rewrite set_property_proto.
  - by rewrite lookup_set_property_ne.
Qed.

(** Every entry a check run returns is an [entry_of_run]. *)
Lemma runAllChecks_entry_of_run (cfg : Config.t) (timestamp : string)
    (net : nat -> FetchOutcome) (order : list nat) (w w' : World)
    (entry : CheckEntry.t) :
  runAllChecks cfg timestamp net order w = (Ok entry, w') ->
  entry_of_run entry.
Proof.
  unfold runAllChecks, bind. rewrite for_of_emit. intros [= <- _].
  unfold entry_of_run. simpl.
  apply (results_no_proto (buildChecks cfg) net order ∅), lookup_empty.
Qed.

(** C2 (as the code has it). Probe resolution never rejects a
    configuration: for every configuration, duplicated ids included,
    [buildChecks] is the flattened list, the run requests every probe of
    it once and in order, and the results hold an entry exactly for the
    ids of the list, each entry produced by a probe carrying that id.
    The id "__proto__", which the results object cannot hold as a
    property, is left aside. *)
Theorem probes_resolved_without_validation (cfg : Config.t)
    (timestamp : string) (net : nat -> FetchOutcome) (order : list nat)
    (w : World) :
  order ≡ₚ seq 0 (length (buildChecks cfg)) ->
  buildChecks cfg
  = flat_map (fun g => map (component_check cfg) (GroupConfig.components g))
             (Config.groups cfg)
    ++ map external_check (Config.external cfg)
  /\ exists entry,
      runAllChecks cfg timestamp net order w
      = (Ok entry,
         mkWorld (checks_dir w)
                 (events w
                  ++ map (fun c => EvFetch (ProbeSpec.url c))
                         (buildChecks cfg)))
      /\ (forall id, id <> "__proto__" ->
            (is_Some (CheckEntry.results entry !! id)
             <-> id ∈ map ProbeSpec.id (buildChecks cfg)))
      /\ (forall id r, CheckEntry.results entry !! id = Some r ->
            exists i check, buildChecks cfg !! i = Some check /\
              ProbeSpec.id check = id /\ r = executeCheck check (net i)).
Proof.
  intros Hperm. split; [apply buildChecks_flat|].
  unfold runAllChecks. eexists. split.
  - unfold bind. rewrite for_of_emit. reflexivity.
  - simpl.
    change (foldl _ ∅ order)
      with (foldl (store_result (buildChecks cfg) net) ∅ order).
    split.
    + intros id Hid. rewrite results_domain, lookup_empty by exact Hid. split.
      * intros [[? [=]]|(i & c & _ & Hc & <-)].
        apply list_elem_of_fmap. exists c. split; [done|].
        by eapply list_elem_of_lookup_2.
      * intros (c & -> & Hc)%list_elem_of_fmap.
        apply list_elem_of_lookup in Hc as (i & Hi). right. exists i, c.
        split; [|done]. rewrite Hperm. apply elem_of_seq.
        apply lookup_lt_Some in Hi. lia.
    + intros id r H. apply results_provenance in H
        as [H|(i & c & _ & Hc & Hid & Hr)]; [by rewrite lookup_empty in H|].
      by exists i, c.
Qed.

Lemma probes_resolved_without_validation_witness :
  exists entry,
    runAllChecks duplicate_config "t" (net sample_env) [1%nat; 0%nat]
                 (mkWorld None [])
    = (Ok entry,
       mkWorld None
         [EvFetch "https://api.example/forecast?lat=37.98&lon=23.72";
          EvFetch "https://api.example/health"])
    /\ (forall id, id <> "__proto__" ->
          (is_Some (CheckEntry.results entry !! id)
           <-> id ∈ ["api"; "api"])).
Proof.
  destruct (probes_resolved_without_validation duplicate_config "t"
              (net sample_env) [1%nat; 0%nat] (mkWorld None []))
    as (_ & entry & Hrun & Hdom & _).
  - simpl. apply perm_swap.
  - exists entry. split; [exact Hrun | exact Hdom].
Defined.

(** C2 (as claimed) fails: a configuration with a duplicated id is not
    rejected; the run requests both probes and ends normally. *)
Lemma duplicate_ids_not_rejected :
  ~ NoDup (map ProbeSpec.id (buildChecks duplicate_config))
  /\ fst (main duplicate_config sample_env (mkWorld None [])) = Ok tt
  /\ EvFetch "https://api.example/forecast?lat=37.98&lon=23.72"
       ∈ events (snd (main duplicate_config sample_env (mkWorld None [])))
  /\ EvFetch "https://api.example/health"
       ∈ events (snd (main duplicate_config sample_env (mkWorld None []))).
Proof.
  split; [|split; [|split]].
  - simpl. intros H. apply NoDup_cons in H as [H _]. apply H. set_solver.
  - vm_compute. reflexivity.
  - vm_compute. apply list_elem_of_In. simpl. tauto.
  - vm_compute. apply list_elem_of_In. simpl. tauto.
Qed.

(** ** Daily aggregation *)

Lemma updateDailyFile_corrupt (now : Z) (checkEntry : CheckEntry.t)
    (w : World) (dir : gmap string FileContent) :
  checks_dir w = Some dir ->
  dir !! (isoDate (Day now) +:+ ".json") = Some Corrupt ->
  updateDailyFile now checkEntry w = (Throw SyntaxError, w).
Proof.
  intros Hdir Hfile. unfold updateDailyFile, bind, fs_existsSync.
  rewrite Hdir, Hfile. simpl.
  unfold fs_readFileSync. rewrite Hdir, Hfile. reflexivity.
Qed.

(** C1 (the code at the failing input). With an unreadable record for
    today, the run throws the parse error: no record is written and the
    unreadable file stays as it was. *)
Theorem corrupt_record_fails_the_run :
  fst (main sample_config sample_env corrupt_today) = Throw SyntaxError
  /\ checks_dir (snd (main sample_config sample_env corrupt_today))
     = Some {["2026-11-02.json" := Corrupt]}
  /\ forall file d,
       EvWriteFile file d
       ∉ events (snd (main sample_config sample_env corrupt_today)).
Proof.
  assert (Hrun : main sample_config sample_env corrupt_today
    = (Throw SyntaxError,
       mkWorld (Some {["2026-11-02.json" := Corrupt]})
         [EvFetch "https://api.example/forecast?lat=37.98&lon=23.72";
          EvFetch "https://api.example/health"])).
  { unfold main, bind. simpl.
    erewrite updateDailyFile_corrupt; [reflexivity|reflexivity|].
    vm_compute. reflexivity. }
  rewrite Hrun. simpl. split; [done|split; [done|]].
  intros file d H. apply list_elem_of_In in H. simpl in H.
  destruct H as [H|[H|[]]]; discriminate.
Qed.

Lemma update_summary_checks (df : DailyFile.t) (e : string * CheckResult.t) :
  DailyFile.checks (update_summary df e) = DailyFile.checks df
  /\ DailyFile.date (update_summary df e) = DailyFile.date df.
Proof.
  destruct e as [id r]. unfold update_summary.
  destruct (DailyFile.summary df !! id); [done |]. by case_decide.
Qed.

Lemma update_summary_lookup (df : DailyFile.t) (k : string)
    (r : CheckResult.t) (id : string) :
  DailyFile.summary (update_summary df (k, r)) !! id
  = if decide (k = id)
    then summary_after (DailyFile.checks df) id r (DailyFile.summary df !! id)
    else DailyFile.summary df !! id.
Proof.
  unfold update_summary, summary_after.
  destruct (decide (k = id)) as [-> | Hne].
  - destruct (DailyFile.summary df !! id) eqn:E; simpl.
    + by rewrite lookup_insert_eq.
    + case_decide; simpl; [exact E | by rewrite lookup_insert_eq].
  - destruct (DailyFile.summary df !! k); simpl.
    + by rewrite lookup_insert_ne.
    + case_decide; simpl; [done | by rewrite lookup_insert_ne].
Qed.

(** The loop over the entries of a results object touches each id once. *)
Lemma foldl_update_summary (l : list (string * CheckResult.t))
    (df : DailyFile.t) :
  NoDup (l.*1) ->
  DailyFile.date (foldl update_summary df l) = DailyFile.date df
  /\ DailyFile.checks (foldl update_summary df l) = DailyFile.checks df
  /\ forall id,
       DailyFile.summary (foldl update_summary df l) !! id
       = match (list_to_map l : gmap string CheckResult.t) !! id with
         | Some r =>
             summary_after (DailyFile.checks df) id r
                           (DailyFile.summary df !! id)
         | None => DailyFile.summary df !! id
         end.
Proof.
  revert df. induction l as [|[k r] l IH]; intros df Hnd.
  - simpl. repeat split.
  - apply NoDup_cons in Hnd as [Hk Hnd]. simpl in Hk.
    destruct (IH (update_summary df (k, r)) Hnd) as (Hd & Hc & Hs).
    destruct (update_summary_checks df (k, r)) as [Hc1 Hd1].
    change (foldl update_summary df ((k, r) :: l))
      with (foldl update_summary (update_summary df (k, r)) l).
    rewrite Hd, Hc, Hc1, Hd1. repeat split. intros id.
    rewrite Hs, Hc1, update_summary_lookup. clear IH Hs Hd Hc.
    change (list_to_map ((k, r) :: l) : gmap string CheckResult.t)
      with (<[k := r]> (list_to_map l : gmap string CheckResult.t)).
    destruct (decide (k = id)) as [->|Hne].
    + rewrite (not_elem_of_list_to_map_1 l id Hk).
      by rewrite lookup_insert_eq.
    + by rewrite lookup_insert_ne.
Qed.

Lemma merged_spec (d0 : DailyFile.t) (checkEntry : CheckEntry.t) :
  DailyFile.date (merged d0 checkEntry) = DailyFile.date d0
  /\ DailyFile.checks (merged d0 checkEntry)
     = DailyFile.checks d0 ++ [checkEntry]
  /\ forall id,
       DailyFile.summary (merged d0 checkEntry) !! id
       = match CheckEntry.results checkEntry !! id with
         | Some r =>
             summary_after (DailyFile.checks d0 ++ [checkEntry]) id r
                           (DailyFile.summary d0 !! id)
         | None => DailyFile.summary d0 !! id
         end.
Proof.
  unfold merged.
  destruct (foldl_update_summary
              (map_to_list (CheckEntry.results checkEntry))
              (DailyFile.mk (DailyFile.date d0)
                            (push (DailyFile.checks d0) checkEntry)
                            (DailyFile.summary d0))
              (NoDup_fst_map_to_list _)) as (Hd & Hc & Hs).
  rewrite Hd, Hc. repeat split. intros id. rewrite Hs.
  by rewrite list_to_map_to_list.
Qed.

(** A probe that is [summarised] has a recomputed summary afterwards. *)
Lemma summary_after_summarised (d0 : DailyFile.t) (id : string)
    (checks : list CheckEntry.t) (r : CheckResult.t) :
  summarised d0 id ->
  summary_after checks id r (DailyFile.summary d0 !! id)
  = Some (summarise checks id r
            (default new_summary (DailyFile.summary d0 !! id))).
Proof.
  intros [[s Hs] | Hplain]; unfold summary_after.
  - by rewrite Hs.
  - destruct (DailyFile.summary d0 !! id); [done |].
    by rewrite decide_False.
Qed.

(** What [updateDailyFile] does when today's record is absent or
    readable: it succeeds and stores the merged record. *)
Lemma updateDailyFile_merged (now : Z) (checkEntry : CheckEntry.t)
    (w : World) (dir : gmap string FileContent) (d0 : DailyFile.t) :
  let file := isoDate (Day now) +:+ ".json" in
  checks_dir w = Some dir ->
  prior_record (isoDate (Day now)) (dir !! file) = Some d0 ->
  updateDailyFile now checkEntry w
  = (Ok tt,
     mkWorld (Some (<[file := Stored (merged d0 checkEntry)]> dir))
             (push (events w) (EvWriteFile file (merged d0 checkEntry)))).
Proof.
  intros file Hdir Hprior. unfold updateDailyFile, bind, fs_existsSync.
  fold file. rewrite Hdir.
  destruct (dir !! file) as [[|d]|] eqn:Hfile; simpl in Hprior;
    [discriminate| |]; injection Hprior as <-.
  - rewrite bool_decide_eq_true_2 by by eexists.
    unfold fs_readFileSync. rewrite Hdir, Hfile. simpl.
    unfold fs_writeFileSync. by rewrite Hdir.
  - rewrite bool_decide_eq_false_2 by by intros [? [=]].
    simpl. unfold fs_writeFileSync. by rewrite Hdir.
Qed.

(** The counters and the uptime percentage after one recomputation. *)
Lemma summarise_counts (checks : list CheckEntry.t) (id : string)
    (r : CheckResult.t) (s : DaySummary.t) :
  let s' := summarise checks id r s in
  DaySummary.totalChecks s' = DaySummary.totalChecks s + 1
  /\ DaySummary.upChecks s'
     = DaySummary.upChecks s
       + (if bool_decide (CheckResult.status r = up) then 1 else 0)
  /\ DaySummary.degradedChecks s'
     = DaySummary.degradedChecks s
       + (if bool_decide (CheckResult.status r = degraded) then 1 else 0)
  /\ DaySummary.downChecks s'
     = DaySummary.downChecks s
       + (if bool_decide (CheckResult.status r = down) then 1 else 0)
  /\ DaySummary.uptimePercent s'
     = percentage (DaySummary.upChecks s' + DaySummary.degradedChecks s')
                  (DaySummary.totalChecks s').
Proof.
  unfold summarise, percentage.
  destruct (bool_decide (0 < length (allResponseTimes checks id))%nat);
    destruct (CheckResult.status r);
    (split_and!; [simpl; lia .. | reflexivity]).
Qed.

Lemma Math_round_bounds (y : Q) (lo hi : Z) :
  (inject_Z lo <= y)%Q -> (y <= inject_Z hi)%Q ->
  lo <= Math_round y <= hi.
Proof.
  intros Hlo Hhi. unfold Math_round. split.
  - replace lo with (Qfloor (inject_Z lo + (1 # 2))).
    + apply Qfloor_resp_le. by apply Qplus_le_l.
    + unfold Qfloor, Qplus, inject_Z; simpl.
      symmetry. apply Z.div_unique with (r := 1); lia.
  - replace hi with (Qfloor (inject_Z hi + (1 # 2))).
    + apply Qfloor_resp_le. by apply Qplus_le_l.
    + unfold Qfloor, Qplus, inject_Z; simpl.
      symmetry. apply Z.div_unique with (r := 1); lia.
Qed.

Lemma Math_round_near (y : Q) :
  (y - (1 # 2) < inject_Z (Math_round y)
   /\ inject_Z (Math_round y) <= y + (1 # 2))%Q.
Proof.
  unfold Math_round.
  pose proof (Qfloor_le (y + (1 # 2))) as Hlo.
  pose proof (Qlt_floor (y + (1 # 2))) as Hhi.
  rewrite inject_Z_plus in Hhi. change (inject_Z 1) with 1%Q in Hhi.
  split; lra.
Qed.

Lemma ratio_bounds (a t : Z) :
  0 <= a <= t -> 0 < t ->
  (0 <= inject_Z a / inject_Z t)%Q /\ (inject_Z a / inject_Z t <= 1)%Q.
Proof.
  intros Ha Ht.
  assert (Htq : (0 < inject_Z t)%Q) by (rewrite <- (Zlt_Qlt 0); exact Ht).
  split.
  - apply Qle_shift_div_l; [exact Htq |]. rewrite Qmult_0_l.
    rewrite <- (Zle_Qle 0). lia.
  - apply Qle_shift_div_r; [exact Htq |]. rewrite Qmult_1_l.
    rewrite <- Zle_Qle. lia.
Qed.

(** The stored percentage of [a] good checks out of [t]: it lies in
    [0, 100], it is the double nearest to a whole number of hundredths,
    and it is within half a hundredth, up to the rounding of the four
    floating-point operations, of the exact percentage. *)
Lemma percentage_spec (a t : Z) :
  0 <= a <= t -> 0 < t ->
  let exact := (inject_Z a / inject_Z t * 100)%Q in
  (0 <= percentage a t)%Q /\ (percentage a t <= 100)%Q
  /\ (exists k : Z, 0 <= k <= 10000
                    /\ percentage a t = binary64 (inject_Z k / 100))
  /\ (exact - (1 # 200) - (1 # 1000000000000) <= percentage a t)%Q
  /\ (percentage a t <= exact + (1 # 200) + (1 # 1000000000000))%Q.
Proof.
  intros Ha Ht exact. subst exact. unfold percentage.
  destruct (ratio_bounds a t Ha Ht) as [X0 X1].
  set (X := (inject_Z a / inject_Z t)%Q) in *.
  pose proof (binary64_nonneg X X0) as Q0.
  pose proof (binary64_mono X 1 X0 X1) as Q1.
  change (binary64 1) with 1%Q in Q1.
  destruct (binary64_error X X0) as [Qa Qb].
  set (q := binary64 X) in *.
  assert (P0' : (0 <= q * 100)%Q) by lra.
  pose proof (binary64_nonneg _ P0') as P0.
  pose proof (binary64_mono (q * 100) 100 P0' ltac:(lra)) as P1.
  change (binary64 100) with 100%Q in P1.
  destruct (binary64_error _ P0') as [Pa Pb].
  set (p := binary64 (q * 100)) in *.
  assert (Y0' : (0 <= p * 100)%Q) by lra.
  pose proof (binary64_nonneg _ Y0') as Y0.
  pose proof (binary64_mono (p * 100) 10000 Y0' ltac:(lra)) as Y1.
  change (binary64 10000) with 10000%Q in Y1.
  destruct (binary64_error _ Y0') as [Ya Yb].
  set (y := binary64 (p * 100)) in *.
  pose proof (Math_round_bounds y 0 10000 Y0 Y1) as Hk.
  destruct (Math_round_near y) as [Ka Kb].
  set (k := Math_round y) in *.
  assert (K0 : (0 <= inject_Z k)%Q) by (rewrite <- (Zle_Qle 0); lia).
  assert (K1 : (inject_Z k <= 10000)%Q)
    by (change 10000%Q with (inject_Z 10000); rewrite <- Zle_Qle; lia).
  assert (V : (inject_Z k / 100 == inject_Z k * (1 # 100))%Q) by reflexivity.
  set (v := (inject_Z k / 100)%Q) in *.
  assert (U0' : (0 <= v)%Q) by lra.
  pose proof (binary64_nonneg _ U0') as U0.
  pose proof (binary64_mono v 100 U0' ltac:(lra)) as U1.
  change (binary64 100) with 100%Q in U1.
  destruct (binary64_error _ U0') as [Ua Ub].
  split; [exact U0 |]. split; [exact U1 |].
  split; [exists k; split; [exact Hk | reflexivity] |].
  set (u := binary64 v) in *.
  split; lra.
Qed.

Lemma summarise_good_of_total (checks : list CheckEntry.t) (id : string)
    (r : CheckResult.t) (s : DaySummary.t) :
  summary_inv s ->
  let s' := summarise checks id r s in
  0 <= DaySummary.upChecks s' /\ 0 <= DaySummary.degradedChecks s'
  /\ 0 <= DaySummary.downChecks s'
  /\ DaySummary.upChecks s' + DaySummary.degradedChecks s'
     + DaySummary.downChecks s' = DaySummary.totalChecks s'
  /\ 0 < DaySummary.totalChecks s'.
Proof.
  intros (Hu & Hg & Hd & Hsum & _) s'.
  destruct (summarise_counts checks id r s) as (Ht & Hu' & Hg' & Hd' & _).
  subst s'. rewrite Ht, Hu', Hg', Hd'.
  assert (Hone :
    (if bool_decide (CheckResult.status r = up) then 1 else 0)
    + (if bool_decide (CheckResult.status r = degraded) then 1 else 0)
    + (if bool_decide (CheckResult.status r = down) then 1 else 0) = 1).
  { by destruct (CheckResult.status r). }
  assert (H01 : forall b : bool, 0 <= (if b then 1 else 0) <= 1).
  { intros []; lia. }
  pose proof (H01 (bool_decide (CheckResult.status r = up))).
  pose proof (H01 (bool_decide (CheckResult.status r = degraded))).
  pose proof (H01 (bool_decide (CheckResult.status r = down))).
  split_and!; lia.
Qed.

Lemma summarise_inv (checks : list CheckEntry.t) (id : string)
    (r : CheckResult.t) (s : DaySummary.t) :
  summary_inv s -> summary_inv (summarise checks id r s).
Proof.
  intros Hinv.
  destruct (summarise_good_of_total checks id r s Hinv)
    as (Hu & Hg & Hd & Hsum & Ht).
  destruct (summarise_counts checks id r s) as (_ & _ & _ & _ & Hp).
  unfold summary_inv. rewrite Hp.
  destruct (percentage_spec
              (DaySummary.upChecks (summarise checks id r s)
               + DaySummary.degradedChecks (summarise checks id r s))
              (DaySummary.totalChecks (summarise checks id r s))
              ltac:(lia) Ht) as (P0 & P1 & _).
  split_and!; done.
Qed.

Lemma new_summary_inv : summary_inv new_summary.
Proof. unfold summary_inv, new_summary; simpl. split_and!; try lia; done. Qed.

(** C5 (as the code has it). When today's record is absent or readable
    and its summaries satisfy the invariant, the aggregator succeeds and
    stores a record all of whose summaries satisfy it: the three outcome
    counters add up to [totalChecks] and [uptimePercent] lies in
    [0, 100].  For every probe of the entry that has or gets a summary,
    the total grew by one and [uptimePercent] is the result of the
    script's double-precision computation: the double nearest to a whole
    number of hundredths, within half a hundredth (and the rounding of
    the floating-point operations, below 10^-12) of the exact percentage
    [(upChecks + degradedChecks) / totalChecks * 100]. *)
Theorem summary_invariant_preserved (now : Z)
    (checkEntry : CheckEntry.t) (w : World)
    (dir : gmap string FileContent) (d0 : DailyFile.t) :
  let file := isoDate (Day now) +:+ ".json" in
  checks_dir w = Some dir ->
  prior_record (isoDate (Day now)) (dir !! file) = Some d0 ->
  entry_of_run checkEntry ->
  (forall id s, DailyFile.summary d0 !! id = Some s -> summary_inv s) ->
  exists d',
    fst (updateDailyFile now checkEntry w) = Ok tt
    /\ checks_dir (snd (updateDailyFile now checkEntry w))
       = Some (<[file := Stored d']> dir)
    /\ (forall id s, DailyFile.summary d' !! id = Some s -> summary_inv s)
    /\ (forall id r, CheckEntry.results checkEntry !! id = Some r ->
          summarised d0 id ->
          exists s,
            DailyFile.summary d' !! id = Some s
            /\ DaySummary.totalChecks s
               = DaySummary.totalChecks
                   (default new_summary (DailyFile.summary d0 !! id)) + 1
            /\ let exact :=
                 (inject_Z (DaySummary.upChecks s + DaySummary.degradedChecks s)
                  / inject_Z (DaySummary.totalChecks s) * 100)%Q in
               (exists k : Z,
                  0 <= k <= 10000
                  /\ DaySummary.uptimePercent s = binary64 (inject_Z k / 100))
               /\ (exact - (1 # 200) - (1 # 1000000000000)
                   <= DaySummary.uptimePercent s)%Q
               /\ (DaySummary.uptimePercent s
                   <= exact + (1 # 200) + (1 # 1000000000000))%Q).
Proof.
  intros file Hdir Hprior _ Hinv. exists (merged d0 checkEntry).
  rewrite (updateDailyFile_merged now checkEntry w dir d0 Hdir Hprior).
  destruct (merged_spec d0 checkEntry) as (_ & _ & Hs).
  assert (Hprior_inv :
    forall id, summary_inv (default new_summary (DailyFile.summary d0 !! id))).
  { intros id. destruct (DailyFile.summary d0 !! id) as [s0|] eqn:Hs0; simpl.
    - by eapply Hinv.
    - apply new_summary_inv. }
  simpl. split_and!; try done.
  - intros id s. rewrite Hs.
    destruct (CheckEntry.results checkEntry !! id) as [r|]; [|apply Hinv].
    unfold summary_after.
    destruct (DailyFile.summary d0 !! id) as [s0|] eqn:Hs0.
    + intros [= <-]. apply summarise_inv. by eapply Hinv.
    + case_decide; [done |]. intros [= <-].
      apply summarise_inv, new_summary_inv.
  - intros id r Hr Hsum. rewrite Hs, Hr.
    rewrite (summary_after_summarised d0 id _ r Hsum).
    eexists. split; [reflexivity|].
    set (s0 := default new_summary (DailyFile.summary d0 !! id)).
    set (checks := DailyFile.checks d0 ++ [checkEntry]).
    destruct (summarise_counts checks id r s0) as (Ht & _ & _ & _ & Hp).
    destruct (summarise_good_of_total checks id r s0 (Hprior_inv id))
      as (Hu & Hg & Hd & Hadd & Hpos).
    split; [exact Ht |]. cbv zeta. rewrite Hp.
    destruct (percentage_spec
                (DaySummary.upChecks (summarise checks id r s0)
                 + DaySummary.degradedChecks (summarise checks id r s0))
                (DaySummary.totalChecks (summarise checks id r s0))
                ltac:(lia) Hpos) as (_ & _ & Hk & Hlo & Hhi).
    split; [exact Hk | split; [exact Hlo | exact Hhi]].
Qed.

Lemma summary_invariant_preserved_witness :
  exists d' s,
    fst (updateDailyFile sample_now second_entry first_world) = Ok tt
    /\ checks_dir (snd (updateDailyFile sample_now second_entry first_world))
       = Some (<["2026-11-02.json" := Stored d']>
                 {["2026-11-02.json" := Stored first_record]})
    /\ (forall id s, DailyFile.summary d' !! id = Some s -> summary_inv s)
    /\ DailyFile.summary d' !! "api" = Some s
    /\ DaySummary.totalChecks s = 2
    /\ (inject_Z (DaySummary.upChecks s + DaySummary.degradedChecks s)
        / inject_Z (DaySummary.totalChecks s) * 100
        - (1 # 200) - (1 # 1000000000000) <= DaySummary.uptimePercent s)%Q
    /\ (DaySummary.uptimePercent s
        <= inject_Z (DaySummary.upChecks s + DaySummary.degradedChecks s)
           / inject_Z (DaySummary.totalChecks s) * 100
           + (1 # 200) + (1 # 1000000000000))%Q.
Proof.
  destruct (summary_invariant_preserved sample_now second_entry first_world
              {["2026-11-02.json" := Stored first_record]} first_record)
    as (d' & Hok & Hdir & Hinv & Hall).
  - reflexivity.
  - vm_compute. reflexivity.
  - vm_compute. reflexivity.
  - intros id s H. unfold first_record in H. simpl in H.
    apply lookup_singleton_Some in H as [_ <-].
    unfold summary_inv; simpl. split_and!; try lia; done.
  - destruct (Hall "api" (CheckResult.mk down 10002 0))
      as (s & Hs & Ht & _ & Hlo & Hhi).
    + vm_compute. reflexivity.
    + left. vm_compute. eexists. reflexivity.
    + exists d', s. split_and!; try done.
Defined.

(** C5 (as claimed) fails: with 87 good checks out of 160 the exact
    percentage is 54.375, which rounds to 54.38, but the script's
    double-precision product is just below 54.375 and the double nearest
    to 54.37 is stored. *)
Lemma uptimePercent_not_round2 :
  checks_dir (snd (updateDailyFile sample_now tie_entry tie_world))
  = Some {["2026-11-02.json" := Stored (merged tie_record tie_entry)]}
  /\ DailyFile.summary (merged tie_record tie_entry) !! "api"
     = Some tie_summary
  /\ (inject_Z (DaySummary.upChecks tie_summary
                + DaySummary.degradedChecks tie_summary)
      / inject_Z (DaySummary.totalChecks tie_summary) * 100
      == 54375 # 1000)%Q
  /\ (round2 (54375 # 1000) == 5438 # 100)%Q
  /\ (DaySummary.uptimePercent tie_summary < 5438 # 100)%Q
  /\ ~ (DaySummary.uptimePercent tie_summary
        == round2 (inject_Z (DaySummary.upChecks tie_summary
                             + DaySummary.degradedChecks tie_summary)
                   / inject_Z (DaySummary.totalChecks tie_summary) * 100))%Q.
Proof.
  split_and!.
  - vm_compute. reflexivity.
  - vm_compute. reflexivity.
  - vm_compute. reflexivity.
  - vm_compute. reflexivity.
  - vm_compute. reflexivity.
  - vm_compute. discriminate.
Qed.

Lemma foldl_add_sum (xs : list Z) (a : Z) : foldl Z.add a xs = a + sum_Z xs.
Proof.
  revert a. induction xs as [|x xs IH]; intros a; simpl; [lia|].
  rewrite IH. unfold sum_Z. simpl. lia.
Qed.

(** [Math.round] of a quotient of integers, in integer arithmetic. *)
Lemma Math_round_div (s n : Z) :
  0 < n -> Math_round (inject_Z s / inject_Z n) = (2 * s + n) / (2 * n).
Proof.
  intros Hn. unfold Math_round. rewrite Zdiv_Qdiv. apply Qfloor_comp.
  rewrite inject_Z_plus, !inject_Z_mult.
  assert (Hn0 : ~ inject_Z n == 0).
  { unfold Qeq, inject_Z; simpl. lia. }
  field. done.
Qed.

Lemma rounded_mean_correct (samples : list Z) :
  samples <> [] ->
  is_rounded_mean samples
    (Math_round (inject_Z (foldl Z.add 0 samples)
                 / inject_Z (Z.of_nat (length samples)))).
Proof.
  intros Hne. unfold is_rounded_mean.
  assert (Hn : 0 < Z.of_nat (length samples)).
  { destruct samples; [done|simpl; lia]. }
  rewrite Math_round_div by done. rewrite foldl_add_sum, Z.add_0_l.
  set (n := Z.of_nat (length samples)) in *.
  set (s := sum_Z samples).
  pose proof (Z.div_mod (2 * s + n) (2 * n) ltac:(lia)) as Hdm.
  pose proof (Z.mod_pos_bound (2 * s + n) (2 * n) ltac:(lia)) as Hmod.
  nia.
Qed.

Lemma ceil95_bounds (n : Z) :
  0 < n -> 1 <= Qceiling ((95 # 100) * inject_Z n) <= n.
Proof.
  intros Hn. split.
  - pose proof (Qle_ceiling ((95 # 100) * inject_Z n)) as H.
    assert (Hpos : (0 < (95 # 100) * inject_Z n)%Q).
    { unfold Qlt, Qmult, inject_Z; simpl. lia. }
    pose proof (Qlt_le_trans _ _ _ Hpos H) as H0.
    change (inject_Z 0 < inject_Z (Qceiling ((95 # 100) * inject_Z n)))%Q in H0.
    rewrite <- Zlt_Qlt in H0. lia.
  - rewrite <- (Qceiling_Z n) at 2. apply Qceiling_resp_le.
    unfold Qle, Qmult, inject_Z; simpl. lia.
Qed.

Lemma p95_index_lt (n : nat) : (0 < n)%nat -> (p95_index n < n)%nat.
Proof.
  intros Hn. unfold p95_index.
  pose proof (ceil95_bounds (Z.of_nat n) ltac:(lia)). lia.
Qed.

(** The samples the script collects for [id] are the response times
    recorded for [id] that are strictly positive, in the order of the
    day's entries. *)
Lemma allResponseTimes_recorded (checks : list CheckEntry.t) (id : string) :
  allResponseTimes checks id = recorded_positive checks id.
Proof.
  unfold allResponseTimes.
  induction checks as [|c checks IH]; [reflexivity |].
  cbn [omap list_omap recorded_positive].
  destruct (CheckEntry.results c !! id) as [r|]; cbn [fmap option_fmap option_map].
  - destruct (Z.ltb_spec 0 (CheckResult.responseTime r)) as [Hpos | Hneg].
    + rewrite filter_cons_True by exact Hpos. by rewrite IH.
    + rewrite filter_cons_False by lia. exact IH.
  - exact IH.
Qed.

(** The latency fields after one recomputation, as the code computes
    them. *)
Lemma summarise_latency_eq (checks : list CheckEntry.t) (id : string)
    (r : CheckResult.t) (s : DaySummary.t) :
  let samples := allResponseTimes checks id in
  let s' := summarise checks id r s in
  (samples <> [] ->
     DaySummary.avgResponseTime s'
     = Math_round (inject_Z (foldl Z.add 0 samples)
                   / inject_Z (Z.of_nat (length samples)))
     /\ DaySummary.p95ResponseTime s'
        = default 0 (sort_ascending samples !! p95_index (length samples)))
  /\ (samples = [] ->
        DaySummary.avgResponseTime s' = DaySummary.avgResponseTime s
        /\ DaySummary.p95ResponseTime s' = DaySummary.p95ResponseTime s).
Proof.
  intros samples s'. subst s'. unfold summarise. fold samples.
  destruct samples as [|t samples'] eqn:Hs.
  - split; [done|]. intros _. by rewrite bool_decide_eq_false_2 by (simpl; lia).
  - split; [|done]. intros _.
    rewrite bool_decide_eq_true_2 by (simpl; lia).
    cbn [DaySummary.avgResponseTime DaySummary.p95ResponseTime].
    split; [done|].
    f_equal. f_equal. unfold p95_index, Math_max, Math_ceil, sort_ascending.
    rewrite (Permutation_length (merge_sort_Permutation Z.le (t :: samples'))).
    f_equal. f_equal. f_equal. apply Qceiling_comp. apply Qmult_comm.
Qed.

Lemma summarise_latency (checks : list CheckEntry.t) (id : string)
    (r : CheckResult.t) (s : DaySummary.t) :
  let samples := allResponseTimes checks id in
  let s' := summarise checks id r s in
  samples <> [] ->
  is_rounded_mean samples (DaySummary.avgResponseTime s')
  /\ is_p95 samples (DaySummary.p95ResponseTime s').
Proof.
  intros samples s' Hne.
  destruct (summarise_latency_eq checks id r s) as [Heq _].
  destruct (Heq Hne) as [Havg Hp95]. fold samples s' in Havg, Hp95.
  rewrite Havg, Hp95. split; [by apply rounded_mean_correct|].
  exists (sort_ascending samples). unfold sort_ascending.
  split; [apply merge_sort_Permutation|].
  split; [apply Sorted_merge_sort; apply _|].
  destruct (merge_sort Z.le samples !! p95_index (length samples)) eqn:Hl;
    [done|].
  apply lookup_ge_None in Hl.
  rewrite (Permutation_length (merge_sort_Permutation Z.le samples)) in Hl.
  assert (0 < length samples)%nat by (destruct samples; [done|simpl; lia]).
  pose proof (p95_index_lt (length samples) ltac:(done)). lia.
Qed.

(** The latency statistics of the probes that have or get a summary.
    After an update, with [samples] the strictly positive response times
    recorded for the probe today (the new entry included): if there are
    any, [avgResponseTime] is their mean rounded to the nearest integer
    and [p95ResponseTime] is the element at index [ceil(0.95 * n) - 1]
    (clamped to 0) of the samples sorted ascending; if there are none,
    both fields keep their previous values (0 for a new summary).
    Samples [100, 120, 110, 500, 105] give a p95 of 500. *)
Lemma latency_statistics (now : Z)
    (checkEntry : CheckEntry.t) (w : World)
    (dir : gmap string FileContent) (d0 : DailyFile.t) :
  let file := isoDate (Day now) +:+ ".json" in
  checks_dir w = Some dir ->
  prior_record (isoDate (Day now)) (dir !! file) = Some d0 ->
  entry_of_run checkEntry ->
  exists d',
    fst (updateDailyFile now checkEntry w) = Ok tt
    /\ checks_dir (snd (updateDailyFile now checkEntry w))
       = Some (<[file := Stored d']> dir)
    /\ DailyFile.checks d' = DailyFile.checks d0 ++ [checkEntry]
    /\ (forall id r, CheckEntry.results checkEntry !! id = Some r ->
          summarised d0 id ->
          exists s,
            DailyFile.summary d' !! id = Some s
            /\ let samples :=
                 recorded_positive (DailyFile.checks d0 ++ [checkEntry]) id in
               let s0 := default new_summary (DailyFile.summary d0 !! id) in
               (samples <> [] ->
                  is_rounded_mean samples (DaySummary.avgResponseTime s)
                  /\ is_p95 samples (DaySummary.p95ResponseTime s))
               /\ (samples = [] ->
                     DaySummary.avgResponseTime s
                     = DaySummary.avgResponseTime s0
                     /\ DaySummary.p95ResponseTime s
                        = DaySummary.p95ResponseTime s0)
               /\ (samples = [100; 120; 110; 500; 105] ->
                     DaySummary.p95ResponseTime s = 500)).
Proof.
  intros file Hdir Hprior _. exists (merged d0 checkEntry).
  rewrite (updateDailyFile_merged now checkEntry w dir d0 Hdir Hprior).
  destruct (merged_spec d0 checkEntry) as (_ & Hc & Hs).
  simpl. split_and!; try done.
  intros id r Hr Hsum. rewrite Hs, Hr.
  rewrite (summary_after_summarised d0 id _ r Hsum).
  eexists. split; [reflexivity|].
  rewrite <- allResponseTimes_recorded.
  cbv zeta. split_and!.
  - apply summarise_latency.
  - apply summarise_latency_eq.
  - intros Hsamples.
    destruct (summarise_latency_eq (DailyFile.checks d0 ++ [checkEntry]) id r
                (default new_summary (DailyFile.summary d0 !! id)))
      as [Heq _].
    cbv zeta in Heq. rewrite Hsamples in Heq.
    destruct (Heq ltac:(discriminate)) as [_ Hp]. rewrite Hp.
    vm_compute. reflexivity.
Qed.

(** Two probes on one day: each gets the statistics of its own samples.
    The samples of "api" are 100, 120, 110, 500 and 105 (its result of
    0 ms is not one), those of "cdn" are 40 and 60. *)
Lemma latency_statistics_two_probes :
  exists d' api cdn,
    checks_dir (snd (updateDailyFile sample_now sixth_entry five_world))
    = Some (<["2026-11-02.json" := Stored d']>
              {["2026-11-02.json" := Stored five_record]})
    /\ recorded_positive (DailyFile.checks d') "api"
       = [100; 120; 110; 500; 105]
    /\ recorded_positive (DailyFile.checks d') "cdn" = [40; 60]
    /\ DailyFile.summary d' !! "api" = Some api
    /\ is_rounded_mean [100; 120; 110; 500; 105] (DaySummary.avgResponseTime api)
    /\ DaySummary.avgResponseTime api = 187
    /\ DaySummary.p95ResponseTime api = 500
    /\ DailyFile.summary d' !! "cdn" = Some cdn
    /\ is_rounded_mean [40; 60] (DaySummary.avgResponseTime cdn)
    /\ DaySummary.avgResponseTime cdn = 50
    /\ is_p95 [40; 60] (DaySummary.p95ResponseTime cdn)
    /\ DaySummary.p95ResponseTime cdn = 60.
Proof.
  destruct (latency_statistics sample_now sixth_entry five_world
              {["2026-11-02.json" := Stored five_record]} five_record)
    as (d' & _ & Hdir & Hc & Hall).
  - reflexivity.
  - vm_compute. reflexivity.
  - vm_compute. reflexivity.
  - assert (Hapi :
      recorded_positive (DailyFile.checks five_record ++ [sixth_entry]) "api"
      = [100; 120; 110; 500; 105]) by (vm_compute; reflexivity).
    assert (Hcdn :
      recorded_positive (DailyFile.checks five_record ++ [sixth_entry]) "cdn"
      = [40; 60]) by (vm_compute; reflexivity).
    destruct (Hall "api" (CheckResult.mk up 105 200))
      as (api & Hsa & Hmean_a & _ & Hp95_a);
      [vm_compute; reflexivity | left; vm_compute; by eexists |].
    destruct (Hall "cdn" (CheckResult.mk up 60 200))
      as (cdn & Hsc & Hmean_c & _ & _);
      [vm_compute; reflexivity | left; vm_compute; by eexists |].
    rewrite Hapi in Hmean_a, Hp95_a. rewrite Hcdn in Hmean_c.
    destruct (Hmean_a ltac:(discriminate)) as [Ma _].
    destruct (Hmean_c ltac:(discriminate)) as [Mc Pc].
    assert (Hd' : d' = merged five_record sixth_entry).
    { revert Hdir.
      rewrite (updateDailyFile_merged sample_now sixth_entry five_world
                 {["2026-11-02.json" := Stored five_record]} five_record)
        by (vm_compute; reflexivity).
      simpl. intros Heq. apply (inj Some) in Heq.
      apply (f_equal (fun m => m !! "2026-11-02.json")) in Heq.
      rewrite !lookup_insert_eq in Heq. congruence. }
    exists d', api, cdn. rewrite Hc, Hapi, Hcdn.
    split; [exact Hdir |]. split; [reflexivity |]. split; [reflexivity |].
    split; [exact Hsa |]. split; [exact Ma |].
    split; [subst d'; revert Hsa; vm_compute; by intros [= <-] |].
    split; [apply Hp95_a; reflexivity |].
    split; [exact Hsc |]. split; [exact Mc |].
    split; [subst d'; revert Hsc; vm_compute; by intros [= <-] |].
    split; [exact Pc |].
    subst d'. revert Hsc. vm_compute. by intros [= <-].
Qed.

(** C4 (the code at the failing input). A probe whose id is the name of
    a member that objects inherit, here "constructor", answers in 120 ms
    and its result is recorded in the day's entry; the aggregator finds
    the inherited member in place of a summary, creates none, and the
    stored record has no latency statistics for that probe.  The probe
    "health" of the same run gets its summary. *)
Theorem inherited_name_gets_no_statistics :
  fst (main constructor_config sample_env (mkWorld None [])) = Ok tt
  /\ checks_dir (snd (main constructor_config sample_env (mkWorld None [])))
     = Some {["2026-11-02.json" :=
                Stored (DailyFile.mk "2026-11-02" [constructor_entry]
                          {["health" := DaySummary.mk 1 1 0 0 100 120 120]})]}
  /\ CheckEntry.results constructor_entry !! "constructor"
     = Some (CheckResult.mk up 120 200)
  /\ recorded_positive [constructor_entry] "constructor" = [120].
Proof. split_and!; vm_compute; reflexivity. Qed.

(** ** Dates as strings *)

(** Turn a conjunction of boolean comparisons into arithmetic facts. *)
Ltac bool_to_prop :=
  repeat match goal with
         | H : _ && _ = true |- _ => apply andb_prop in H as [? ?]
         | H : (_ <=? _) = true |- _ => apply Z.leb_le in H
         | H : (_ <? _) = true |- _ => apply Z.ltb_lt in H
         end.

Lemma check_from_sound (n : positive) (P : Z -> bool) (lo : Z) :
  check_from n P lo = true ->
  forall x, lo <= x < lo + Z.pos n -> P x = true.
Proof.
  revert lo. induction n as [p IH|p IH|]; intros lo H x Hx; simpl in H.
  - apply andb_prop in H as [H H2]. apply andb_prop in H as [H0 H1].
    destruct (decide (x = lo)) as [->|]; [done|].
    destruct (decide (x < lo + 1 + Z.pos p)).
    + apply (IH (lo + 1)); [done|lia].
    + apply (IH (lo + 1 + Z.pos p)); [done|lia].
  - apply andb_prop in H as [H1 H2].
    destruct (decide (x < lo + Z.pos p)).
    + apply (IH lo); [done|lia].
    + apply (IH (lo + Z.pos p)); [done|lia].
  - by replace x with lo by lia.
Qed.

Lemma era_days_ok (doe : Z) : 0 <= doe <= 146096 -> era_day_ok doe = true.
Proof.
  intros H. apply (check_from_sound 146097 era_day_ok 0); [|lia].
  vm_compute. reflexivity.
Qed.

Lemma civil_from_days_era (day : Z) :
  let z := day + 719468 in
  civil_from_days day
  = let '(y, m, d) := civil_in_era (z mod 146097) in
    (y + z / 146097 * 400, m, d).
Proof.
  simpl. unfold civil_from_days.
  replace (day + 719468 - (day + 719468) / 146097 * 146097)
    with ((day + 719468) mod 146097); [done|].
  rewrite Z.mod_eq by lia. lia.
Qed.

Lemma civil_bounds (day : Z) :
  let '(_, m, d) := civil_from_days day in 1 <= m <= 12 /\ 1 <= d <= 31.
Proof.
  rewrite civil_from_days_era. cbv zeta.
  pose proof (Z.mod_pos_bound (day + 719468) 146097 ltac:(lia)) as Hb.
  pose proof (era_days_ok ((day + 719468) mod 146097) ltac:(lia)) as Hok.
  unfold era_day_ok in Hok.
  destruct (civil_in_era ((day + 719468) mod 146097)) as [[y m] d].
  bool_to_prop. lia.
Qed.

Lemma date_key_succ (day : Z) :
  date_key (civil_from_days day) < date_key (civil_from_days (day + 1)).
Proof.
  rewrite !civil_from_days_era. cbv zeta.
  set (z := day + 719468). replace (day + 1 + 719468) with (z + 1) by lia.
  pose proof (Z.mod_pos_bound z 146097 ltac:(lia)) as Hb.
  pose proof (Z.div_mod z 146097 ltac:(lia)) as Hdm.
  pose proof (era_days_ok (z mod 146097) ltac:(lia)) as Hok.
  unfold era_day_ok in Hok.
  destruct (Z.eqb_spec (z mod 146097) 146096) as [Hlast|Hnot].
  - assert (Hq : (z + 1) / 146097 = z / 146097 + 1).
    { symmetry. apply Z.div_unique with (r := 0); lia. }
    assert (Hr : (z + 1) mod 146097 = 0).
    { symmetry. apply Z.mod_unique with (q := z / 146097 + 1); lia. }
    rewrite Hq, Hr.
    destruct (civil_in_era (z mod 146097)) as [[y m] d].
    destruct (civil_in_era 0) as [[y' m'] d'].
    bool_to_prop. unfold date_key in *. lia.
  - assert (Hq : (z + 1) / 146097 = z / 146097).
    { symmetry. apply Z.div_unique with (r := z mod 146097 + 1); lia. }
    assert (Hr : (z + 1) mod 146097 = z mod 146097 + 1).
    { symmetry. apply Z.mod_unique with (q := z / 146097); lia. }
    rewrite Hq, Hr.
    destruct (civil_in_era (z mod 146097)) as [[y m] d].
    destruct (civil_in_era (z mod 146097 + 1)) as [[y' m'] d'].
    bool_to_prop. unfold date_key in *. lia.
Qed.

Lemma date_key_mono (d1 d2 : Z) :
  d1 < d2 -> date_key (civil_from_days d1) < date_key (civil_from_days d2).
Proof.
  intros H. replace d2 with (d1 + 1 + Z.of_nat (Z.to_nat (d2 - d1 - 1))) by lia.
  induction (Z.to_nat (d2 - d1 - 1)) as [|k IH].
  - rewrite Z.add_0_r. apply date_key_succ.
  - etrans; [exact IH|].
    replace (d1 + 1 + Z.of_nat (S k)) with (d1 + 1 + Z.of_nat k + 1) by lia.
    apply date_key_succ.
Qed.

Lemma four_digit_year_civil (day : Z) :
  four_digit_year day ->
  let '(y, m, d) := civil_from_days day in
  0 <= y <= 9999 /\ 1 <= m <= 12 /\ 1 <= d <= 31.
Proof.
  intros [Hlo Hhi]. pose proof (civil_bounds day) as Hb.
  assert (Hl : date_key (civil_from_days (-719528))
               <= date_key (civil_from_days day)).
  { destruct (decide (day = -719528)) as [->|]; [done|].
    apply Z.lt_le_incl, date_key_mono. lia. }
  assert (Hh : date_key (civil_from_days day)
               <= date_key (civil_from_days 2932896)).
  { destruct (decide (day = 2932896)) as [->|]; [done|].
    apply Z.lt_le_incl, date_key_mono. lia. }
  change (date_key (civil_from_days (-719528))) with 101 in Hl.
  change (date_key (civil_from_days 2932896)) with 99991231 in Hh.
  destruct (civil_from_days day) as [[y m] d]. unfold date_key in *. lia.
Qed.

Lemma compare_app (p1 p2 s1 s2 : string) :
  String.length p1 = String.length p2 ->
  String.compare (p1 +:+ s1) (p2 +:+ s2)
  = match String.compare p1 p2 with
    | Eq => String.compare s1 s2
    | c => c
    end.
Proof.
  revert p2. induction p1 as [|a p1 IH]; intros [|b p2] Hlen;
    simpl in *; try discriminate; [done|].
  destruct (Ascii.compare a b); [|done..]. apply IH. lia.
Qed.

Lemma length_app (s1 s2 : string) :
  String.length (s1 +:+ s2) = (String.length s1 + String.length s2)%nat.
Proof. induction s1 as [|c s1 IH]; simpl; [done|]. by rewrite IH. Qed.

Lemma length_pad (w : nat) (n : Z) : String.length (pad w n) = w.
Proof.
  revert n. induction w as [|w IH]; intros n; simpl; [done|].
  rewrite length_app, IH. simpl. lia.
Qed.

Lemma digit_compare (i j : nat) :
  (i < 10)%nat -> (j < 10)%nat ->
  Ascii.compare (ascii_of_nat (48 + i)) (ascii_of_nat (48 + j))
  = (Z.of_nat i ?= Z.of_nat j).
Proof.
  intros Hi Hj.
  do 10 (destruct i as [|i];
         [do 10 (destruct j as [|j]; [reflexivity|]); lia|]).
  lia.
Qed.

Lemma compare_digit_char (a b : Z) :
  Ascii.compare (digit_char a) (digit_char b) = (a mod 10 ?= b mod 10).
Proof.
  pose proof (Z.mod_pos_bound a 10 ltac:(lia)).
  pose proof (Z.mod_pos_bound b 10 ltac:(lia)).
  unfold digit_char. rewrite digit_compare by lia.
  by rewrite !Z2Nat.id by lia.
Qed.

Lemma compare_by_digits (a b : Z) :
  (a ?= b)
  = match a / 10 ?= b / 10 with
    | Eq => a mod 10 ?= b mod 10
    | c => c
    end.
Proof.
  pose proof (Z.div_mod a 10 ltac:(lia)).
  pose proof (Z.div_mod b 10 ltac:(lia)).
  pose proof (Z.mod_pos_bound a 10 ltac:(lia)).
  pose proof (Z.mod_pos_bound b 10 ltac:(lia)).
  destruct (Z.compare_spec (a / 10) (b / 10));
    destruct (Z.compare_spec (a mod 10) (b mod 10));
    first [apply Z.compare_eq_iff | apply Z.compare_lt_iff
          | apply Z.compare_gt_iff]; lia.
Qed.

(** Zero-padded decimals of equal width compare like the numbers. *)
Lemma compare_pad (w : nat) (a b : Z) :
  0 <= a < 10 ^ Z.of_nat w -> 0 <= b < 10 ^ Z.of_nat w ->
  String.compare (pad w a) (pad w b) = (a ?= b).
Proof.
  revert a b. induction w as [|w IH]; intros a b Ha Hb.
  - simpl in *. replace a with 0 by lia. by replace b with 0 by lia.
  - rewrite Nat2Z.inj_succ, Z.pow_succ_r in Ha, Hb by lia.
    cbn [pad]. rewrite compare_app by by rewrite !length_pad.
    rewrite IH.
    + rewrite (compare_by_digits a b).
      destruct (a / 10 ?= b / 10); [|done..].
      cbn [String.compare]. rewrite compare_digit_char.
      by destruct (a mod 10 ?= b mod 10).
    + split; [apply Z.div_pos; lia|].
      apply Z.div_lt_upper_bound; lia.
    + split; [apply Z.div_pos; lia|].
      apply Z.div_lt_upper_bound; lia.
Qed.

Lemma compare_iso_format (y1 m1 d1 y2 m2 d2 : Z) :
  0 <= y1 <= 9999 -> 0 <= m1 <= 99 -> 0 <= d1 <= 99 ->
  0 <= y2 <= 9999 -> 0 <= m2 <= 99 -> 0 <= d2 <= 99 ->
  String.compare (pad 4 y1 +:+ "-" +:+ pad 2 m1 +:+ "-" +:+ pad 2 d1)
                 (pad 4 y2 +:+ "-" +:+ pad 2 m2 +:+ "-" +:+ pad 2 d2)
  = (date_key (y1, m1, d1) ?= date_key (y2, m2, d2)).
Proof.
  intros Hy1 Hm1 Hd1 Hy2 Hm2 Hd2.
  rewrite compare_app by by rewrite !length_pad.
  rewrite compare_pad by (simpl; lia).
  change ("-" +:+ pad 2 m1 +:+ "-" +:+ pad 2 d1)
    with (String "-" (pad 2 m1 +:+ String "-" (pad 2 d1))).
  change ("-" +:+ pad 2 m2 +:+ "-" +:+ pad 2 d2)
    with (String "-" (pad 2 m2 +:+ String "-" (pad 2 d2))).
  cbn [String.compare]. change (Ascii.compare "-" "-") with Eq. cbv iota.
  rewrite compare_app by by rewrite !length_pad.
  rewrite compare_pad by (simpl; lia).
  cbn [String.compare]. change (Ascii.compare "-" "-") with Eq. cbv iota.
  rewrite compare_pad by (simpl; lia).
  unfold date_key.
  destruct (Z.compare_spec y1 y2); destruct (Z.compare_spec m1 m2);
    destruct (Z.compare_spec d1 d2); symmetry;
    first [apply Z.compare_eq_iff | apply Z.compare_lt_iff
          | apply Z.compare_gt_iff]; lia.
Qed.

(** ISO dates with four-digit years compare, as strings, like the days
    they denote. *)
Lemma isoDate_compare (d1 d2 : Z) :
  four_digit_year d1 -> four_digit_year d2 ->
  String.compare (isoDate d1) (isoDate d2) = (d1 ?= d2).
Proof.
  intros H1 H2.
  pose proof (four_digit_year_civil d1 H1) as Hc1.
  pose proof (four_digit_year_civil d2 H2) as Hc2.
  assert (Hkey : (date_key (civil_from_days d1)
                  ?= date_key (civil_from_days d2)) = (d1 ?= d2)).
  { destruct (Z.compare_spec d1 d2) as [->|Hlt|Hgt].
    - apply Z.compare_refl.
    - apply Z.compare_lt_iff. by apply date_key_mono.
    - apply Z.compare_gt_iff. by apply date_key_mono. }
  rewrite <- Hkey. unfold isoDate.
  destruct (civil_from_days d1) as [[y1 m1] dd1].
  destruct (civil_from_days d2) as [[y2 m2] dd2].
  unfold isoYear.
  rewrite !(proj2 (andb_true_iff _ _)) by (split; apply Z.leb_le; lia).
  apply compare_iso_format; lia.
Qed.

Lemma isoDate_ltb (d1 d2 : Z) :
  four_digit_year d1 -> four_digit_year d2 ->
  String.ltb (isoDate d1) (isoDate d2) = (d1 <? d2).
Proof.
  intros H1 H2. unfold String.ltb, Z.ltb.
  by rewrite isoDate_compare.
Qed.

Lemma isoDate_inj (d1 d2 : Z) :
  four_digit_year d1 -> four_digit_year d2 ->
  isoDate d1 = isoDate d2 -> d1 = d2.
Proof.
  intros H1 H2 Heq. apply Z.compare_eq_iff.
  rewrite <- isoDate_compare, Heq by done.
  pose proof (String.compare_antisym (isoDate d2) (isoDate d2)) as Hs.
  by destruct (String.compare (isoDate d2) (isoDate d2)).
Qed.

(** ** File names *)

Lemma no_dot_app (s1 s2 : string) :
  no_dot (s1 +:+ s2) <-> no_dot s1 /\ no_dot s2.
Proof. induction s1 as [|c s1 IH]; simpl; [tauto|]. rewrite IH. tauto. Qed.

Lemma digit_char_no_dot (n : Z) : digit_char n <> "."%char.
Proof.
  intros H. apply (f_equal nat_of_ascii) in H. unfold digit_char in H.
  pose proof (Z.mod_pos_bound n 10 ltac:(lia)).
  rewrite nat_ascii_embedding in H by lia.
  change (nat_of_ascii ".") with 46%nat in H. lia.
Qed.

Lemma no_dot_pad (w : nat) (n : Z) : no_dot (pad w n).
Proof.
  revert n. induction w as [|w IH]; intros n; cbn [pad]; [done|].
  apply no_dot_app. split; [apply IH|]. split; [apply digit_char_no_dot|done].
Qed.

Lemma no_dot_isoDate (day : Z) : no_dot (isoDate day).
Proof.
  unfold isoDate. destruct (civil_from_days day) as [[y m] d].
  change (no_dot (isoYear y
                  +:+ String "-" (pad 2 m +:+ String "-" (pad 2 d)))).
  apply no_dot_app. split.
  - unfold isoYear.
    destruct ((0 <=? y) && (y <=? 9999)); [apply no_dot_pad|].
    destruct (y <? 0); (split; [discriminate|apply no_dot_pad]).
  - cbn [no_dot]. split; [discriminate|].
    apply no_dot_app. split; [apply no_dot_pad|].
    cbn [no_dot]. split; [discriminate|apply no_dot_pad].
Qed.

Lemma replace_json (s : string) :
  no_dot s -> replace (s +:+ ".json") ".json" EmptyString = s.
Proof.
  induction s as [|c s IH]; [done|]. intros [Hc Hs].
  change (replace (String c (s +:+ ".json")) ".json" EmptyString = String c s).
  cbn [replace String.prefix].
  destruct (ascii_dec "." c) as [Heq|_]; [congruence|].
  by rewrite IH.
Qed.

Lemma substring_app_length (s t : string) (k : nat) :
  substring (String.length s) k (s +:+ t) = substring 0 k t.
Proof. induction s as [|c s IH]; [done|]. exact IH. Qed.

Lemma endsWith_json (s : string) : endsWith (s +:+ ".json") ".json" = true.
Proof.
  unfold endsWith. rewrite length_app.
  change (String.length ".json") with 5%nat.
  replace (String.length s + 5 - 5)%nat with (String.length s) by lia.
  rewrite substring_app_length.
  apply andb_true_intro. split; [apply Nat.leb_le; lia|done].
Qed.

(** Whether the record of day [day] is deleted, in terms of days. *)
Lemma expired_isoDate (cutoff day : Z) :
  four_digit_year cutoff -> four_digit_year day ->
  expired (isoDate cutoff) (isoDate day +:+ ".json") = (day <? cutoff).
Proof.
  intros Hc Hd. unfold expired.
  rewrite endsWith_json, replace_json by apply no_dot_isoDate.
  by rewrite isoDate_ltb.
Qed.

Lemma json_name_inj (s1 s2 : string) :
  s1 +:+ ".json" = s2 +:+ ".json" -> s1 = s2.
Proof.
  revert s2. induction s1 as [|c s1 IH]; intros [|c2 s2] H; simpl in *.
  - done.
  - apply (f_equal String.length) in H. simpl in H.
    rewrite length_app in H. simpl in H. lia.
  - apply (f_equal String.length) in H. simpl in H.
    rewrite length_app in H. simpl in H. lia.
  - injection H as -> H. f_equal. by apply IH.
Qed.

(** ** Retention *)

Lemma compacted_idemp (c : FileContent) : compacted (compacted c) = compacted c.
Proof. by destruct c. Qed.

Lemma compacted_empty (d : DailyFile.t) :
  DailyFile.checks d = [] -> compacted (Stored d) = Stored d.
Proof. destruct d as [date checks summary]. simpl. by intros ->. Qed.

Lemma filter_none {A : Type} (P : A -> Prop) `{!forall x, Decision (P x)}
    (l : list A) :
  (forall x, x ∈ l -> ~ P x) -> filter P l = [].
Proof.
  induction l as [|x l IH]; intros Hall; [done|].
  rewrite filter_cons_False by (apply Hall; left).
  apply IH. intros y Hy. apply Hall. by right.
Qed.

(** The deletion loop over a list of distinct existing files. *)
Lemma unlink_loop (cutoffStr : string) (l : list string)
    (dir : gmap string FileContent) (ev : list Event) :
  NoDup l -> (forall f, f ∈ l -> is_Some (dir !! f)) ->
  exists dir',
    for_of l (fun file =>
      if String.ltb (replace file ".json" EmptyString) cutoffStr
      then fs_unlinkSync file else ret tt)
      (mkWorld (Some dir) ev)
    = (Ok tt,
       mkWorld (Some dir')
         (ev ++ map EvUnlink
                  (filter (fun f =>
                     String.ltb (replace f ".json" EmptyString) cutoffStr
                     = true) l)))
    /\ forall g,
         dir' !! g
         = if decide (g ∈ l /\
                      String.ltb (replace g ".json" EmptyString) cutoffStr
                      = true)
           then None else dir !! g.
Proof.
  revert dir ev. induction l as [|f l IH]; intros dir ev Hnd Hin.
  - exists dir. split; [simpl; by rewrite app_nil_r|].
    intros g. case_decide as H; [|done]. destruct H as [H _]. by inversion H.
  - apply NoDup_cons in Hnd as [Hf Hnd]. cbn [for_of]. unfold bind at 1.
    destruct (String.ltb (replace f ".json" EmptyString) cutoffStr) eqn:HP.
    + destruct (Hin f ltac:(left)) as [c Hc].
      unfold fs_unlinkSync at 1. cbn [checks_dir events]. rewrite Hc.
      destruct (IH (delete f dir) (push ev (EvUnlink f)) Hnd)
        as (dir' & Hrun & Hlook).
      { intros g Hg. rewrite lookup_delete_ne; [apply Hin; by right|].
        by intros ->. }
      exists dir'. rewrite Hrun. split.
      * rewrite filter_cons_True by done. unfold push. simpl.
        by rewrite <- app_assoc.
      * intros g. rewrite Hlook. clear IH Hrun Hlook.
        destruct (decide (g = f)) as [->|Hne].
        -- rewrite lookup_delete_eq.
           rewrite (decide_True (P := f ∈ f :: l /\ _)); [by case_decide|].
           split; [left|done].
        -- rewrite lookup_delete_ne by done.
           destruct (decide (g ∈ l /\ _)) as [[Hg HPg]|Hn];
             destruct (decide (g ∈ f :: l /\ _)) as [[Hg' HPg']|Hn'];
             try done; exfalso.
           ++ apply Hn'. split; [by right|done].
           ++ apply elem_of_cons in Hg' as [->|Hg']; [done|]. by apply Hn.
    + cbn [ret]. destruct (IH dir ev Hnd) as (dir' & Hrun & Hlook).
      { intros g Hg. apply Hin. by right. }
      exists dir'. rewrite Hrun. split.
      * rewrite filter_cons_False; [done|]. by rewrite HP.
      * intros g. rewrite Hlook. clear IH Hrun Hlook.
        destruct (decide (g ∈ l /\ _)) as [[Hg HPg]|Hn];
          destruct (decide (g ∈ f :: l /\ _)) as [[Hg' HPg']|Hn'];
          try done; exfalso.
        -- apply Hn'. split; [by right|done].
        -- apply elem_of_cons in Hg' as [->|Hg']; [congruence|]. by apply Hn.
Qed.

(** The first half of [cleanupOldData]: every expired file is deleted
    and nothing else changes. *)
Lemma sweep_expired (cutoffStr : string) (dir : gmap string FileContent)
    (ev : list Event) :
  let files :=
    filter (fun f => endsWith f ".json" = true) (map fst (map_to_list dir)) in
  exists dir1 evs,
    for_of files (fun file =>
      if String.ltb (replace file ".json" EmptyString) cutoffStr
      then fs_unlinkSync file else ret tt)
      (mkWorld (Some dir) ev)
    = (Ok tt, mkWorld (Some dir1) (ev ++ evs))
    /\ (forall g, dir1 !! g = if expired cutoffStr g then None else dir !! g)
    /\ ((forall g, is_Some (dir !! g) -> expired cutoffStr g = false) ->
        evs = []).
Proof.
  intros files.
  assert (Hfiles : forall g, g ∈ files
                    <-> endsWith g ".json" = true /\ is_Some (dir !! g)).
  { intros g. unfold files. rewrite list_elem_of_filter, list_elem_of_fmap.
    split.
    - intros (He & [k c] & -> & Hkc). split; [done|].
      apply elem_of_map_to_list in Hkc. by eexists.
    - intros (He & c & Hc). split; [done|]. exists (g, c).
      split; [done|]. by apply elem_of_map_to_list. }
  destruct (unlink_loop cutoffStr files dir ev) as (dir1 & Hrun & Hlook).
  { apply NoDup_filter, NoDup_fst_map_to_list. }
  { intros f Hf. by apply Hfiles in Hf as [_ ?]. }
  exists dir1. eexists. split; [exact Hrun|]. split.
  - intros g. rewrite Hlook. unfold expired.
    destruct (decide (g ∈ files /\ _)) as [[Hg Hl]|Hn].
    + apply Hfiles in Hg as [He _]. by rewrite He, Hl.
    + destruct (endsWith g ".json") eqn:He; [|done].
      destruct (String.ltb (replace g ".json" EmptyString) cutoffStr)
        eqn:Hl; [|done].
      destruct (dir !! g) eqn:Hg; [|done].
      exfalso. apply Hn. split; [|done]. apply Hfiles. split; [done|].
      rewrite Hg. by eexists.
  - intros Hnone.
    rewrite filter_none; [done|].
    intros f Hf Hl. apply Hfiles in Hf as [He Hs].
    specialize (Hnone f Hs). unfold expired in Hnone.
    rewrite He, Hl in Hnone. discriminate.
Qed.

(** What one invocation of [cleanupOldData] does to an existing checks
    directory: it succeeds; a file remains exactly when it is not
    expired, yesterday's file compacted and every other one untouched;
    and it acts on nothing when there is nothing to delete or compact. *)
Lemma cleanupOldData_spec (now : Z) (w : World)
    (dir : gmap string FileContent) :
  let cutoffStr := isoDate (Day now - 90) in
  let yesterdayFile := isoDate (Day now - 1) +:+ ".json" in
  checks_dir w = Some dir ->
  exists dir' evs,
    cleanupOldData now w = (Ok tt, mkWorld (Some dir') (events w ++ evs))
    /\ (forall g,
          dir' !! g
          = if expired cutoffStr g then None
            else if decide (g = yesterdayFile) then compacted <$> dir !! g
                 else dir !! g)
    /\ ((forall g, is_Some (dir !! g) -> expired cutoffStr g = false) ->
        (forall d, dir !! yesterdayFile = Some (Stored d) ->
                   DailyFile.checks d = []) ->
        evs = []).
Proof.
  intros cutoffStr yesterdayFile Hdir. destruct w as [cd ev].
  simpl in Hdir. subst cd. cbn [events].
  destruct (sweep_expired cutoffStr dir ev)
    as (dir1 & evs1 & Hrun & Hlook & Hquiet).
  unfold cleanupOldData. fold cutoffStr yesterdayFile.
  unfold bind at 1, fs_existsSync_dir at 1. cbn [checks_dir].
  rewrite bool_decide_eq_true_2 by by eexists. cbn [negb].
  unfold bind at 1, fs_readdirSync at 1. cbn [checks_dir].
  unfold bind at 1. cbv zeta in Hrun |- *. rewrite Hrun.
  unfold bind at 1, fs_existsSync at 1. cbn [checks_dir].
  assert (Hy1 : dir1 !! yesterdayFile
                = if expired cutoffStr yesterdayFile then None
                  else dir !! yesterdayFile) by apply Hlook.
  destruct (dir1 !! yesterdayFile) as [[|d]|] eqn:Hy.
  - (* unreadable: the parse error is swallowed *)
    rewrite bool_decide_eq_true_2 by by eexists.
    unfold try_catch, bind, fs_readFileSync, lift. cbn [checks_dir].
    rewrite Hy. cbn [JSON_parse ret].
    exists dir1, evs1. split; [done|]. split.
    + intros g. rewrite Hlook.
      destruct (expired cutoffStr g) eqn:He; [done|].
      case_decide as Hg; [|done]. subst g. rewrite He in Hy1.
      by rewrite <- Hy1.
    + intros Hnone _. by apply Hquiet.
  - rewrite bool_decide_eq_true_2 by by eexists.
    unfold try_catch, bind at 1, fs_readFileSync at 1. cbn [checks_dir].
    rewrite Hy. unfold bind at 1, lift at 1. cbn [JSON_parse].
    destruct (DailyFile.checks d) as [|c cs] eqn:Hchecks.
    + (* already compacted *)
      rewrite bool_decide_eq_false_2 by (simpl; lia). cbn [ret].
      exists dir1, evs1. split; [done|]. split.
      * intros g. rewrite Hlook.
        destruct (expired cutoffStr g) eqn:He; [done|].
        case_decide as Hg; [|done]. subst g. rewrite He in Hy1.
        rewrite <- Hy1.
        change (Some (Stored d) = Some (compacted (Stored d))).
        by rewrite compacted_empty.
      * intros Hnone _. by apply Hquiet.
    + (* entries present: rewrite the file without them *)
      rewrite bool_decide_eq_true_2 by (simpl; lia).
      unfold fs_writeFileSync. cbn [checks_dir events].
      eexists _, (evs1 ++ [_]). split.
      * unfold push. by rewrite <- app_assoc.
      * split.
        -- intros g. destruct (decide (g = yesterdayFile)) as [->|Hne].
           ++ rewrite lookup_insert_eq.
              destruct (expired cutoffStr yesterdayFile); [done|].
              by rewrite <- Hy1.
           ++ rewrite lookup_insert_ne by done. apply Hlook.
        -- intros Hnone Hempty. exfalso.
           destruct (expired cutoffStr yesterdayFile); [done|].
           symmetry in Hy1. apply Hempty in Hy1. congruence.
  - rewrite bool_decide_eq_false_2 by by intros [? [=]]. cbn [ret].
    exists dir1, evs1. split; [done|]. split.
    + intros g. rewrite Hlook.
      destruct (expired cutoffStr g) eqn:He; [done|].
      case_decide as Hg; [|done]. subst g. rewrite He in Hy1.
      by rewrite <- Hy1.
    + intros Hnone _. by apply Hquiet.
Qed.

Lemma cleanupOldData_same_day (now1 now2 : Z) :
  Day now2 = Day now1 -> cleanupOldData now2 = cleanupOldData now1.
Proof. intros H. unfold cleanupOldData. by rewrite H. Qed.

(** C9. Running the retention step a second time (on the same UTC day)
    changes nothing: the world after two consecutive invocations is the
    world after one, the second having deleted and rewritten nothing. *)
Theorem cleanupOldData_idempotent (now1 now2 : Z) (w : World) :
  Day now2 = Day now1 ->
  cleanupOldData now2 (snd (cleanupOldData now1 w))
  = (Ok tt, snd (cleanupOldData now1 w)).
Proof.
  intros Hday. rewrite (cleanupOldData_same_day now1 now2 Hday).
  destruct (checks_dir w) as [dir|] eqn:Hdir.
  - destruct (cleanupOldData_spec now1 w dir Hdir)
      as (dir1 & evs1 & Hrun1 & Hlook1 & _).
    rewrite Hrun1. cbn [snd].
    destruct (cleanupOldData_spec now1
                (mkWorld (Some dir1) (events w ++ evs1)) dir1 eq_refl)
      as (dir2 & evs2 & Hrun2 & Hlook2 & Hquiet2).
    rewrite Hrun2. cbn [events]. f_equal.
    rewrite Hquiet2, app_nil_r.
    + f_equal. f_equal. apply map_eq. intros g.
      rewrite Hlook2, !Hlook1.
      destruct (expired _ g); [done|].
      case_decide; [|done].
      destruct (dir !! g) as [c|]; [|done]. simpl.
      by rewrite compacted_idemp.
    + intros g [c Hc]. rewrite Hlook1 in Hc.
      by destruct (expired _ g).
    + intros d Hd. rewrite Hlook1 in Hd.
      destruct (expired _ _); [done|].
      rewrite decide_True in Hd by done.
      destruct (dir !! _) as [[|d0]|]; simpl in Hd; try done.
      by injection Hd as <-.
  - assert (Hnone : cleanupOldData now1 w = (Ok tt, w)).
    { unfold cleanupOldData, bind, fs_existsSync_dir. rewrite Hdir.
      by rewrite bool_decide_eq_false_2 by by intros [? [=]]. }
    by rewrite !Hnone.
Qed.

Lemma cleanupOldData_idempotent_witness :
  let stored := fun date =>
    Stored (DailyFile.mk date
              [CheckEntry.mk "t" {["api" := CheckResult.mk up 120 200]}]
              {["api" := DaySummary.mk 1 1 0 0 100 120 120]}) in
  let w :=
    mkWorld (Some {["2026-08-03.json" := stored "2026-08-03";
                    "2026-11-01.json" := stored "2026-11-01"]}) [] in
  cleanupOldData (sample_now + 1000) (snd (cleanupOldData sample_now w))
  = (Ok tt, snd (cleanupOldData sample_now w)).
Proof.
  intros stored w.
  apply (cleanupOldData_idempotent sample_now (sample_now + 1000) w).
  reflexivity.
Defined.

(** C8. One invocation of the retention step on an existing checks
    directory (dates with four-digit years): the record of every day
    strictly more than 90 days before today is deleted, in particular the
    one 91 days back; the record of every later day other than yesterday
    is left as it was, in particular the one exactly 90 days back; and
    yesterday's record, when readable, is kept with an empty entry
    sequence and the same date and summaries. *)
Theorem retention_window (now : Z) (w : World)
    (dir : gmap string FileContent) :
  let today := Day now in
  let file := fun day => isoDate day +:+ ".json" in
  checks_dir w = Some dir ->
  four_digit_year (today - 91) -> four_digit_year today ->
  exists dir',
    fst (cleanupOldData now w) = Ok tt
    /\ checks_dir (snd (cleanupOldData now w)) = Some dir'
    /\ (forall day, four_digit_year day -> day < today - 90 ->
          dir' !! file day = None)
    /\ (forall day, four_digit_year day -> today - 90 <= day ->
          day <> today - 1 -> dir' !! file day = dir !! file day)
    /\ dir' !! file (today - 91) = None
    /\ dir' !! file (today - 90) = dir !! file (today - 90)
    /\ (forall d, dir !! file (today - 1) = Some (Stored d) ->
          exists d',
            dir' !! file (today - 1) = Some (Stored d')
            /\ DailyFile.checks d' = []
            /\ DailyFile.summary d' = DailyFile.summary d
            /\ DailyFile.date d' = DailyFile.date d).
Proof.
  intros today file Hdir Hlo Hhi.
  destruct (cleanupOldData_spec now w dir Hdir)
    as (dir' & evs & Hrun & Hlook & _).
  fold today in Hlook. exists dir'. rewrite Hrun. cbn [fst snd checks_dir].
  assert (Hcut : four_digit_year (today - 90)).
  { unfold four_digit_year in *. lia. }
  assert (Hgone : forall day, four_digit_year day -> day < today - 90 ->
                    dir' !! file day = None).
  { intros day Hday Hlt. rewrite Hlook. unfold file.
    rewrite expired_isoDate by done.
    by rewrite (proj2 (Z.ltb_lt _ _) Hlt). }
  assert (Hkept : forall day, four_digit_year day -> today - 90 <= day ->
                    day <> today - 1 -> dir' !! file day = dir !! file day).
  { intros day Hday Hge Hne. rewrite Hlook. unfold file.
    rewrite expired_isoDate by done.
    rewrite (proj2 (Z.ltb_ge _ _) Hge).
    rewrite decide_False; [done|].
    intros Heq%json_name_inj. apply isoDate_inj in Heq; [done..|].
    unfold four_digit_year in *. lia. }
  split_and!; try done.
  - apply Hgone; [done|lia].
  - apply Hkept; [done|lia..].
  - intros d Hd. rewrite Hlook. unfold file.
    rewrite expired_isoDate by (unfold four_digit_year in *; lia).
    rewrite (proj2 (Z.ltb_ge _ _)) by lia.
    rewrite decide_True by done. fold (file (today - 1)). rewrite Hd.
    eexists. split; [reflexivity|]. done.
Qed.

Lemma retention_window_witness :
  let stored := fun date =>
    Stored (DailyFile.mk date
              [CheckEntry.mk "t" {["api" := CheckResult.mk up 120 200]}]
              {["api" := DaySummary.mk 1 1 0 0 100 120 120]}) in
  let dir : gmap string FileContent :=
    {["2026-08-03.json" := stored "2026-08-03";
      "2026-08-04.json" := stored "2026-08-04";
      "2026-11-01.json" := stored "2026-11-01"]} in
  exists dir',
    checks_dir (snd (cleanupOldData sample_now (mkWorld (Some dir) [])))
    = Some dir'
    /\ dir' !! "2026-08-03.json" = None
    /\ dir' !! "2026-08-04.json" = Some (stored "2026-08-04")
    /\ exists d',
         dir' !! "2026-11-01.json" = Some (Stored d')
         /\ DailyFile.checks d' = []
         /\ DailyFile.summary d'
            = {["api" := DaySummary.mk 1 1 0 0 100 120 120]}.
Proof.
  intros stored dir.
  destruct (retention_window sample_now (mkWorld (Some dir) []) dir)
    as (dir' & _ & Hdir & _ & _ & H91 & H90 & Hy).
  - reflexivity.
  - unfold four_digit_year. vm_compute. split; discriminate.
  - unfold four_digit_year. vm_compute. split; discriminate.
  - exists dir'. split; [exact Hdir|]. split; [exact H91|].
    split; [exact H90|].
    destruct (Hy (DailyFile.mk "2026-11-01"
                    [CheckEntry.mk "t" {["api" := CheckResult.mk up 120 200]}]
                    {["api" := DaySummary.mk 1 1 0 0 100 120 120]}))
      as (d' & Hd' & Hc & Hs & _); [reflexivity|].
    exists d'. split; [exact Hd'|]. split; [exact Hc | exact Hs].
Defined.

(** ** Further properties of check execution *)

(** X1. A result that is not [down] can only come from a resolved
    response with an accepted status code that passed validation; it
    carries that response's elapsed time and status code, and is
    [degraded] exactly when the elapsed time exceeds half the timeout. *)
Theorem executeCheck_not_down (check : ProbeSpec.t) (o : FetchOutcome) :
  CheckResult.status (executeCheck check o) <> down ->
  exists elapsed code body,
    o = Responded elapsed code body
    /\ code ∈ ProbeSpec.expectedStatusCodes check
    /\ validation_ok check body
    /\ executeCheck check o
       = CheckResult.mk
           (if bool_decide (ProbeSpec.timeout check < 2 * elapsed)
            then degraded else up)
           elapsed code.
Proof.
  destruct o as [elapsed|elapsed code body]; [by simpl|].
  intros Hnot. exists elapsed, code, body. split; [done|].
  unfold executeCheck in *.
  destruct (includes (ProbeSpec.expectedStatusCodes check) code) eqn:Hinc;
    [|by simpl in Hnot].
  apply includes_true in Hinc. split; [done|].
  assert (Hval : validation_ok check body).
  { unfold validation_ok.
    destruct (ProbeSpec.validate check) as [v|]; [|done].
    destruct body as [b|]; [|by simpl in Hnot].
    destruct (get_property b (Validate.field v)) as [p|e] eqn:Hp;
      [|by simpl in Hnot].
    destruct (strict_equals_string p (Validate.value v)) eqn:Heq;
      [|by simpl in Hnot].
    apply strict_equals_string_true in Heq. subst p. by exists b. }
  split; [done|].
  assert (Hpass :
    match ProbeSpec.validate check with
    | Some v =>
        match body with
        | Some b =>
            match get_property b (Validate.field v) with
            | Ok p => strict_equals_string p (Validate.value v)
            | Throw _ => false
            end
        | None => false
        end
    | None => true
    end = true).
  { unfold validation_ok in Hval.
    destruct (ProbeSpec.validate check) as [v|]; [|done].
    destruct Hval as (b & -> & ->). by apply strict_equals_string_true. }
  cbv zeta. simpl (if true then _ else _). rewrite Hpass. simpl.
  f_equal.
  destruct (Qle_bool _ _) eqn:Hle; simpl.
  - apply Qle_bool_iff in Hle. unfold Qle in Hle; simpl in Hle.
    rewrite bool_decide_eq_false_2; [done|lia].
  - rewrite bool_decide_eq_true_2; [done|].
    destruct (Z_lt_dec (ProbeSpec.timeout check) (2 * elapsed)); [done|].
    assert (Qle_bool (inject_Z elapsed)
              (inject_Z (ProbeSpec.timeout check) * (1 # 2)) = true);
      [|congruence].
    apply Qle_bool_iff. unfold Qle; simpl. lia.
Qed.

Lemma executeCheck_not_down_witness :
  exists elapsed code body,
    Responded 7000 204 None = Responded elapsed code body
    /\ code ∈ [200; 204]
    /\ executeCheck
         (ProbeSpec.mk "api" "API" "https://x/health" 10000 None [200; 204])
         (Responded 7000 204 None)
       = CheckResult.mk degraded elapsed code.
Proof.
  destruct (executeCheck_not_down
              (ProbeSpec.mk "api" "API" "https://x/health" 10000 None
                            [200; 204])
              (Responded 7000 204 None))
    as (elapsed & code & body & Heq & Hin & _ & Hres).
  - simpl. discriminate.
  - exists elapsed, code, body. injection Heq as <- <- <-.
    split; [reflexivity|]. split; [exact Hin | exact Hres].
Defined.

(** X2. A response whose status code is not accepted is [down] whatever
    its body and however fast it was; the result keeps the elapsed time
    and the status code. *)
Theorem unexpected_status_is_down (check : ProbeSpec.t)
    (elapsed code : Z) (body : option json) :
  code ∉ ProbeSpec.expectedStatusCodes check ->
  executeCheck check (Responded elapsed code body)
  = CheckResult.mk down elapsed code.
Proof.
  intros Hnot. unfold executeCheck.
  destruct (includes (ProbeSpec.expectedStatusCodes check) code) eqn:Hinc.
  - by apply includes_true in Hinc.
  - reflexivity.
Qed.

Lemma unexpected_status_is_down_witness :
  executeCheck
    (ProbeSpec.mk "api" "API" "https://x/health" 10000
                  (Some (Validate.mk "ok" "true")) [200])
    (Responded 35 503 (Some (JObj [("ok", JStr "true")])))
  = CheckResult.mk down 35 503.
Proof.
  apply unexpected_status_is_down. simpl.
  intros H. apply list_elem_of_In in H. simpl in H.
  destruct H as [H|[]]. discriminate.
Defined.

(** ** Further properties of probe resolution and the check run *)



Lemma unique_probe_index (checks : list ProbeSpec.t) (i j : nat)
    (c1 c2 : ProbeSpec.t) :
  NoDup (map ProbeSpec.id checks) ->
  checks !! i = Some c1 -> checks !! j = Some c2 ->
  ProbeSpec.id c1 = ProbeSpec.id c2 -> i = j.
Proof.
  intros Hnd H1 H2 Hid.
  eapply NoDup_lookup; [exact Hnd| |].
  - rewrite list_lookup_fmap, H1. reflexivity.
  - rewrite list_lookup_fmap, H2. simpl. by rewrite Hid.
Qed.

(** X4. When the probe ids are distinct, the entry a run produces does
    not depend on the order in which the probes complete, and the result
    stored under the id of a probe is the outcome of that probe (for
    every id the results object can hold as a property, that is every id
    but "__proto__"). *)
Theorem results_independent_of_completion_order (cfg : Config.t)
    (timestamp : string) (net : nat -> FetchOutcome)
    (order1 order2 : list nat) (w : World) :
  NoDup (map ProbeSpec.id (buildChecks cfg)) ->
  order1 ≡ₚ seq 0 (length (buildChecks cfg)) ->
  order2 ≡ₚ seq 0 (length (buildChecks cfg)) ->
  runAllChecks cfg timestamp net order1 w
  = runAllChecks cfg timestamp net order2 w
  /\ exists entry,
       fst (runAllChecks cfg timestamp net order1 w) = Ok entry
       /\ forall i check,
            buildChecks cfg !! i = Some check ->
            ProbeSpec.id check <> "__proto__" ->
            CheckEntry.results entry !! ProbeSpec.id check
            = Some (executeCheck check (net i)).
Proof.
  intros Hnd Hp1 Hp2.
  set (checks := buildChecks cfg) in *.
  assert (Hval : forall order, order ≡ₚ seq 0 (length checks) ->
    forall i check, checks !! i = Some check ->
      ProbeSpec.id check <> "__proto__" ->
      foldl (store_result checks net) ∅ order !! ProbeSpec.id check
      = Some (executeCheck check (net i))).
  { intros order Hperm i check Hi Hid.
    assert (Hsome : is_Some
      (foldl (store_result checks net) ∅ order !! ProbeSpec.id check)).
    { apply results_domain; [exact Hid |].
      right. exists i, check. split; [|done].
      rewrite Hperm. apply elem_of_seq. apply lookup_lt_Some in Hi. lia. }
    destruct Hsome as [r Hr]. rewrite Hr.
    apply results_provenance in Hr as [Hr|(j & c & _ & Hc & Hjd & ->)];
      [by rewrite lookup_empty in Hr|].
    assert (j = i) as -> by (eapply unique_probe_index; eauto).
    rewrite Hi in Hc. by injection Hc as <-. }
  assert (Heq : foldl (store_result checks net) ∅ order1
                = foldl (store_result checks net) ∅ order2).
  { apply map_eq. intros id.
    destruct (decide (id = "__proto__")) as [-> | Hid].
    - by rewrite !results_no_proto by apply lookup_empty.
    - destruct (foldl _ ∅ order1 !! id) as [r|] eqn:H1.
      + apply results_provenance in H1 as [H1|(j & c & _ & Hc & <- & ->)];
          [by rewrite lookup_empty in H1|].
        symmetry. by apply Hval.
      + destruct (foldl _ ∅ order2 !! id) as [r|] eqn:H2; [|done].
        apply results_provenance in H2 as [H2|(j & c & _ & Hc & <- & ->)];
          [by rewrite lookup_empty in H2|].
        rewrite (Hval order1 Hp1 j c Hc Hid) in H1. discriminate. }
  unfold runAllChecks, bind. fold checks. rewrite for_of_emit. cbn [ret fst].
  change (foldl _ ∅ order1) with (foldl (store_result checks net) ∅ order1).
  change (foldl _ ∅ order2) with (foldl (store_result checks net) ∅ order2).
  rewrite Heq. split; [done|].
  eexists. split; [reflexivity|]. cbn [CheckEntry.results].
  intros i check Hi Hid. by apply Hval.
Qed.

Lemma results_independent_of_completion_order_witness :
  runAllChecks sample_config "t"
    (fun i => if (i =? 0)%nat then Responded 120 200 None else Rejected 8001)
    [0%nat; 1%nat] (mkWorld None [])
  = runAllChecks sample_config "t"
      (fun i => if (i =? 0)%nat then Responded 120 200 None else Rejected 8001)
      [1%nat; 0%nat] (mkWorld None []).
Proof.
  apply (results_independent_of_completion_order sample_config "t"
           (fun i => if (i =? 0)%nat then Responded 120 200 None
                     else Rejected 8001)
           [0%nat; 1%nat] [1%nat; 0%nat] (mkWorld None [])).
  - simpl. apply NoDup_cons. split; [|apply NoDup_singleton].
    intros H. apply list_elem_of_In in H. simpl in H.
    destruct H as [H|[]]. discriminate.
  - reflexivity.
  - simpl. apply perm_swap.
Defined.

(** ** Further properties of the daily aggregation *)

(** X5. An update never removes a summary and never lowers a
    [totalChecks]: the summary of a probe absent from the entry is left
    exactly as it was, and every other file of the directory is
    untouched. *)
Theorem aggregator_totals_monotone (now : Z) (checkEntry : CheckEntry.t)
    (w : World) (dir : gmap string FileContent) (d0 : DailyFile.t) :
  let file := isoDate (Day now) +:+ ".json" in
  checks_dir w = Some dir ->
  prior_record (isoDate (Day now)) (dir !! file) = Some d0 ->
  entry_of_run checkEntry ->
  exists dir' d',
    checks_dir (snd (updateDailyFile now checkEntry w)) = Some dir'
    /\ dir' !! file = Some (Stored d')
    /\ (forall g, g <> file -> dir' !! g = dir !! g)
    /\ (forall id s0, DailyFile.summary d0 !! id = Some s0 ->
          exists s', DailyFile.summary d' !! id = Some s'
                     /\ DaySummary.totalChecks s0
                        <= DaySummary.totalChecks s')
    /\ (forall id, CheckEntry.results checkEntry !! id = None ->
          DailyFile.summary d' !! id = DailyFile.summary d0 !! id).
Proof.
  intros file Hdir Hprior _.
  exists (<[file := Stored (merged d0 checkEntry)]> dir),
         (merged d0 checkEntry).
  rewrite (updateDailyFile_merged now checkEntry w dir d0 Hdir Hprior).
  destruct (merged_spec d0 checkEntry) as (_ & _ & Hs).
  cbn [snd checks_dir]. split_and!.
  - done.
  - apply lookup_insert_eq.
  - intros g Hg. by apply lookup_insert_ne.
  - intros id s0 Hs0. rewrite Hs, Hs0.
    destruct (CheckEntry.results checkEntry !! id) as [r|].
    + eexists. split; [reflexivity|].
      destruct (summarise_counts (DailyFile.checks d0 ++ [checkEntry]) id r s0)
        as (Ht & _).
      rewrite Ht. lia.
    + exists s0. split; [done|lia].
  - intros id Hnone. by rewrite Hs, Hnone.
Qed.

Lemma aggregator_totals_monotone_witness :
  let d0 :=
    DailyFile.mk "2026-11-02" []
      {["api" := DaySummary.mk 7 7 0 0 100 120 130;
        "cdn" := DaySummary.mk 7 6 0 1 (binary64 (8571 # 100)) 40 45]} in
  let w := mkWorld (Some {["2026-11-02.json" := Stored d0]}) [] in
  let checkEntry :=
    CheckEntry.mk "t" {["api" := CheckResult.mk up 105 200]} in
  exists dir' d',
    checks_dir (snd (updateDailyFile sample_now checkEntry w)) = Some dir'
    /\ dir' !! "2026-11-02.json" = Some (Stored d')
    /\ DailyFile.summary d' !! "cdn"
       = Some (DaySummary.mk 7 6 0 1 (binary64 (8571 # 100)) 40 45).
Proof.
  intros d0 w checkEntry.
  destruct (aggregator_totals_monotone sample_now checkEntry w
              {["2026-11-02.json" := Stored d0]} d0)
    as (dir' & d' & Hdir & Hfile & _ & _ & Hother).
  - reflexivity.
  - vm_compute. reflexivity.
  - vm_compute. reflexivity.
  - exists dir', d'. split; [exact Hdir|]. split; [exact Hfile|].
    rewrite (Hother "cdn"); reflexivity.
Defined.

(** X6. For every probe of the entry that has or gets a summary,
    exactly the counter of the result's status grows by one; the other
    two keep their values. *)
Theorem aggregator_counts_by_status (now : Z) (checkEntry : CheckEntry.t)
    (w : World) (dir : gmap string FileContent) (d0 : DailyFile.t) :
  let file := isoDate (Day now) +:+ ".json" in
  checks_dir w = Some dir ->
  prior_record (isoDate (Day now)) (dir !! file) = Some d0 ->
  entry_of_run checkEntry ->
  exists d',
    checks_dir (snd (updateDailyFile now checkEntry w))
    = Some (<[file := Stored d']> dir)
    /\ forall id r, CheckEntry.results checkEntry !! id = Some r ->
         summarised d0 id ->
         exists s',
           DailyFile.summary d' !! id = Some s'
           /\ let s0 := default new_summary (DailyFile.summary d0 !! id) in
              match CheckResult.status r with
              | up =>
                  DaySummary.upChecks s' = DaySummary.upChecks s0 + 1
                  /\ DaySummary.degradedChecks s'
                     = DaySummary.degradedChecks s0
                  /\ DaySummary.downChecks s' = DaySummary.downChecks s0
              | degraded =>
                  DaySummary.upChecks s' = DaySummary.upChecks s0
                  /\ DaySummary.degradedChecks s'
                     = DaySummary.degradedChecks s0 + 1
                  /\ DaySummary.downChecks s' = DaySummary.downChecks s0
              | down =>
                  DaySummary.upChecks s' = DaySummary.upChecks s0
                  /\ DaySummary.degradedChecks s'
                     = DaySummary.degradedChecks s0
                  /\ DaySummary.downChecks s' = DaySummary.downChecks s0 + 1
              end.
Proof.
  intros file Hdir Hprior _. exists (merged d0 checkEntry).
  rewrite (updateDailyFile_merged now checkEntry w dir d0 Hdir Hprior).
  destruct (merged_spec d0 checkEntry) as (_ & _ & Hs).
  cbn [snd checks_dir]. split; [done|].
  intros id r Hr Hsum. rewrite Hs, Hr.
  rewrite (summary_after_summarised d0 id _ r Hsum).
  eexists. split; [reflexivity|].
  destruct (summarise_counts (DailyFile.checks d0 ++ [checkEntry]) id r
              (default new_summary (DailyFile.summary d0 !! id)))
    as (_ & Hu & Hg & Hd & _).
  cbv zeta. rewrite Hu, Hg, Hd.
  destruct (CheckResult.status r); simpl; lia.
Qed.

Lemma aggregator_counts_by_status_witness :
  let d0 :=
    DailyFile.mk "2026-11-02" []
      {["api" := DaySummary.mk 7 5 1 1 (binary64 (8571 # 100)) 120 130]} in
  let w := mkWorld (Some {["2026-11-02.json" := Stored d0]}) [] in
  let checkEntry :=
    CheckEntry.mk "t" {["api" := CheckResult.mk degraded 6200 200]} in
  exists d' s',
    checks_dir (snd (updateDailyFile sample_now checkEntry w))
    = Some (<["2026-11-02.json" := Stored d']>
              {["2026-11-02.json" := Stored d0]})
    /\ DailyFile.summary d' !! "api" = Some s'
    /\ DaySummary.upChecks s' = 5
    /\ DaySummary.degradedChecks s' = 2
    /\ DaySummary.downChecks s' = 1.
Proof.
  intros d0 w checkEntry.
  destruct (aggregator_counts_by_status sample_now checkEntry w
              {["2026-11-02.json" := Stored d0]} d0)
    as (d' & Hdir & Hall).
  - reflexivity.
  - vm_compute. reflexivity.
  - vm_compute. reflexivity.
  - destruct (Hall "api" (CheckResult.mk degraded 6200 200))
      as (s' & Hs' & Hu & Hg & Hd);
      [reflexivity | left; vm_compute; by eexists |].
    exists d', s'. split; [exact Hdir|]. split; [exact Hs'|].
    split; [exact Hu|]. split; [exact Hg | exact Hd].
Defined.

Lemma filter_all {A : Type} (P : A -> Prop) `{!forall x, Decision (P x)}
    (l : list A) :
  (forall x, x ∈ l -> P x) -> filter P l = l.
Proof.
  induction l as [|x l IH]; intros Hall; [done|].
  rewrite filter_cons_True by (apply Hall; left).
  f_equal. apply IH. intros y Hy. apply Hall. by right.
Qed.

(** In an ascending list, at least [i + 1] elements are at most the
    element at index [i]. *)
Lemma sorted_rank (sorted : list Z) (i : nat) (p : Z) :
  Sorted Z.le sorted -> sorted !! i = Some p ->
  (S i <= length (filter (fun x => (x <= p)%Z) sorted))%nat.
Proof.
  intros Hsorted Hi. apply Sorted_StronglySorted in Hsorted; [|apply _].
  rewrite <- (take_drop (S i) sorted) at 1.
  rewrite filter_app, List.length_app.
  rewrite filter_all.
  - rewrite length_take. apply lookup_lt_Some in Hi. lia.
  - intros x Hx. rewrite (take_S_r _ _ _ Hi) in Hx.
    apply elem_of_app in Hx as [Hx|Hx].
    + rewrite <- (take_drop_middle sorted i p Hi) in Hsorted.
      eapply StronglySorted_app_1_elem_of; [exact Hsorted|exact Hx|left].
    + apply list_elem_of_singleton in Hx. lia.
Qed.

Lemma p95_index_rank (n : nat) :
  (0 < n)%nat -> (19 * n <= 20 * S (p95_index n))%nat.
Proof.
  intros Hn. unfold p95_index.
  pose proof (ceil95_bounds (Z.of_nat n) ltac:(lia)) as [Hc1 Hcn].
  pose proof (Qle_ceiling ((95 # 100) * inject_Z (Z.of_nat n))) as Hle.
  revert Hc1 Hcn Hle.
  generalize (Qceiling ((95 # 100) * inject_Z (Z.of_nat n))). intros c Hc1 Hcn.
  unfold Qle, Qmult, inject_Z; simpl. intros Hle. lia.
Qed.

Lemma recorded_positive_pos (checks : list CheckEntry.t) (id : string)
    (t : Z) :
  t ∈ recorded_positive checks id -> 0 < t.
Proof.
  rewrite <- allResponseTimes_recorded. unfold allResponseTimes.
  by intros [? _]%list_elem_of_filter.
Qed.

(** X7. When a probe of the entry that has or gets a summary has
    positive samples today, its [p95ResponseTime] is one of those samples
    and at least 95% of them are no larger than it. *)
Theorem p95_is_a_percentile (now : Z) (checkEntry : CheckEntry.t)
    (w : World) (dir : gmap string FileContent) (d0 : DailyFile.t) :
  let file := isoDate (Day now) +:+ ".json" in
  checks_dir w = Some dir ->
  prior_record (isoDate (Day now)) (dir !! file) = Some d0 ->
  entry_of_run checkEntry ->
  exists d',
    checks_dir (snd (updateDailyFile now checkEntry w))
    = Some (<[file := Stored d']> dir)
    /\ forall id r, CheckEntry.results checkEntry !! id = Some r ->
         summarised d0 id ->
         exists s',
           DailyFile.summary d' !! id = Some s'
           /\ let samples :=
                recorded_positive (DailyFile.checks d0 ++ [checkEntry]) id in
              samples <> [] ->
              DaySummary.p95ResponseTime s' ∈ samples
              /\ (19 * length samples
                  <= 20 * length (filter
                       (fun t => (t <= DaySummary.p95ResponseTime s')%Z)
                       samples))%nat.
Proof.
  intros file Hdir Hprior _. exists (merged d0 checkEntry).
  rewrite (updateDailyFile_merged now checkEntry w dir d0 Hdir Hprior).
  destruct (merged_spec d0 checkEntry) as (_ & _ & Hs).
  cbn [snd checks_dir]. split; [done|].
  intros id r Hr Hsum. rewrite Hs, Hr.
  rewrite (summary_after_summarised d0 id _ r Hsum).
  eexists. split; [reflexivity|].
  rewrite <- allResponseTimes_recorded.
  cbv zeta. intros Hne.
  destruct (summarise_latency (DailyFile.checks d0 ++ [checkEntry]) id r
              (default new_summary (DailyFile.summary d0 !! id)) Hne)
    as (_ & sorted & Hperm & Hsorted & Hlook).
  set (samples := allResponseTimes (DailyFile.checks d0 ++ [checkEntry]) id)
    in *.
  set (p := DaySummary.p95ResponseTime _) in *.
  split.
  - rewrite <- Hperm. by eapply list_elem_of_lookup_2.
  - pose proof (sorted_rank sorted _ p Hsorted Hlook) as Hrank.
    rewrite Hperm in Hrank.
    assert (0 < length samples)%nat by (destruct samples; [done|simpl; lia]).
    pose proof (p95_index_rank (length samples) ltac:(done)). lia.
Qed.

Lemma p95_is_a_percentile_witness :
  let d0 :=
    DailyFile.mk "2026-11-02"
      [CheckEntry.mk "t1" {["api" := CheckResult.mk up 100 200]};
       CheckEntry.mk "t2" {["api" := CheckResult.mk up 300 200]}]
      {["api" := DaySummary.mk 2 2 0 0 100 200 300]} in
  let w := mkWorld (Some {["2026-11-02.json" := Stored d0]}) [] in
  let checkEntry :=
    CheckEntry.mk "t3" {["api" := CheckResult.mk up 200 200]} in
  exists d' s',
    checks_dir (snd (updateDailyFile sample_now checkEntry w))
    = Some (<["2026-11-02.json" := Stored d']>
              {["2026-11-02.json" := Stored d0]})
    /\ DailyFile.summary d' !! "api" = Some s'
    /\ DaySummary.p95ResponseTime s' ∈ [100; 300; 200].
Proof.
  intros d0 w checkEntry.
  destruct (p95_is_a_percentile sample_now checkEntry w
              {["2026-11-02.json" := Stored d0]} d0)
    as (d' & Hdir & Hall).
  - reflexivity.
  - vm_compute. reflexivity.
  - vm_compute. reflexivity.
  - destruct (Hall "api" (CheckResult.mk up 200 200))
      as (s' & Hs' & Hp); [reflexivity | left; vm_compute; by eexists |].
    exists d', s'. split; [exact Hdir|]. split; [exact Hs'|].
    assert (Hsamples :
      recorded_positive (DailyFile.checks d0 ++ [checkEntry]) "api"
      = [100; 300; 200]) by (vm_compute; reflexivity).
    rewrite Hsamples in Hp. apply Hp. discriminate.
Defined.

Lemma sum_Z_bounds (xs : list Z) (lo hi : Z) :
  (forall t, t ∈ xs -> lo <= t <= hi) ->
  lo * Z.of_nat (length xs) <= sum_Z xs <= hi * Z.of_nat (length xs).
Proof.
  induction xs as [|x xs IH]; intros Hall; [unfold sum_Z; simpl; lia|].
  pose proof (Hall x ltac:(left)) as Hx.
  destruct IH as [IH1 IH2]; [intros t Ht; apply Hall; by right|].
  unfold sum_Z in *. simpl foldr. rewrite length_cons, Nat2Z.inj_succ. nia.
Qed.

Lemma rounded_mean_range (samples : list Z) (a lo hi : Z) :
  samples <> [] -> is_rounded_mean samples a ->
  (forall t, t ∈ samples -> lo <= t <= hi) -> lo <= a <= hi.
Proof.
  intros Hne Hmean Hall. unfold is_rounded_mean in Hmean.
  pose proof (sum_Z_bounds samples lo hi Hall) as Hsum.
  assert (Hn : 0 < Z.of_nat (length samples)).
  { destruct samples; [done|simpl; lia]. }
  revert Hmean Hsum Hn. generalize (Z.of_nat (length samples)) (sum_Z samples).
  intros n s Hmean Hsum Hn. cbv zeta in Hmean. nia.
Qed.

(** X8. When a probe of the entry that has or gets a summary has
    positive samples today, its [avgResponseTime] lies between the
    smallest and the largest of them; in particular it is positive. *)
Theorem average_within_samples (now : Z) (checkEntry : CheckEntry.t)
    (w : World) (dir : gmap string FileContent) (d0 : DailyFile.t) :
  let file := isoDate (Day now) +:+ ".json" in
  checks_dir w = Some dir ->
  prior_record (isoDate (Day now)) (dir !! file) = Some d0 ->
  entry_of_run checkEntry ->
  exists d',
    checks_dir (snd (updateDailyFile now checkEntry w))
    = Some (<[file := Stored d']> dir)
    /\ forall id r, CheckEntry.results checkEntry !! id = Some r ->
         summarised d0 id ->
         exists s',
           DailyFile.summary d' !! id = Some s'
           /\ let samples :=
                recorded_positive (DailyFile.checks d0 ++ [checkEntry]) id in
              samples <> [] ->
              0 < DaySummary.avgResponseTime s'
              /\ forall lo hi,
                   (forall t, t ∈ samples -> lo <= t <= hi) ->
                   lo <= DaySummary.avgResponseTime s' <= hi.
Proof.
  intros file Hdir Hprior _. exists (merged d0 checkEntry).
  rewrite (updateDailyFile_merged now checkEntry w dir d0 Hdir Hprior).
  destruct (merged_spec d0 checkEntry) as (_ & _ & Hs).
  cbn [snd checks_dir]. split; [done|].
  intros id r Hr Hsum. rewrite Hs, Hr.
  rewrite (summary_after_summarised d0 id _ r Hsum).
  eexists. split; [reflexivity|].
  cbv zeta. intros Hne.
  pose proof (recorded_positive_pos
                (DailyFile.checks d0 ++ [checkEntry]) id) as Hall.
  revert Hne Hall. rewrite <- allResponseTimes_recorded. intros Hne Hall.
  destruct (summarise_latency (DailyFile.checks d0 ++ [checkEntry]) id r
              (default new_summary (DailyFile.summary d0 !! id)) Hne)
    as (Hmean & _).
  set (samples := allResponseTimes (DailyFile.checks d0 ++ [checkEntry]) id)
    in *.
  assert (Hrange : forall lo hi,
    (forall t, t ∈ samples -> lo <= t <= hi) ->
    lo <= DaySummary.avgResponseTime
            (summarise (DailyFile.checks d0 ++ [checkEntry]) id r
               (default new_summary (DailyFile.summary d0 !! id))) <= hi).
  { intros lo hi Hb. by eapply rounded_mean_range. }
  split; [|exact Hrange].
  assert (Hnn : forall xs : list Z,
            (forall u, u ∈ xs -> 0 < u) -> 0 <= sum_Z xs).
  { induction xs as [|y ys IH]; intros Hpos; [unfold sum_Z; simpl; lia|].
    assert (0 < y) by (apply Hpos; left).
    assert (0 <= sum_Z ys) by (apply IH; intros u Hu; apply Hpos; by right).
    unfold sum_Z in *. simpl. lia. }
  assert (Hpos : forall t, t ∈ samples -> 1 <= t <= sum_Z samples + 1).
  { intros t Ht. split; [specialize (Hall t Ht); lia|].
    clear -Ht Hall Hnn. induction samples as [|x xs IH]; [by inversion Ht|].
    assert (0 < x) by (apply Hall; left).
    assert (0 <= sum_Z xs) by (apply Hnn; intros u Hu; apply Hall; by right).
    change (sum_Z (x :: xs)) with (x + sum_Z xs).
    apply elem_of_cons in Ht as [->|Ht]; [lia|].
    specialize (IH ltac:(intros u Hu; apply Hall; by right) Ht). lia. }
  specialize (Hrange 1 (sum_Z samples + 1) Hpos). lia.
Qed.

Lemma average_within_samples_witness :
  let d0 :=
    DailyFile.mk "2026-11-02"
      [CheckEntry.mk "t1" {["api" := CheckResult.mk up 100 200]};
       CheckEntry.mk "t2" {["api" := CheckResult.mk up 300 200]}]
      {["api" := DaySummary.mk 2 2 0 0 100 200 300]} in
  let w := mkWorld (Some {["2026-11-02.json" := Stored d0]}) [] in
  let checkEntry :=
    CheckEntry.mk "t3" {["api" := CheckResult.mk up 200 200]} in
  exists d' s',
    checks_dir (snd (updateDailyFile sample_now checkEntry w))
    = Some (<["2026-11-02.json" := Stored d']>
              {["2026-11-02.json" := Stored d0]})
    /\ DailyFile.summary d' !! "api" = Some s'
    /\ 100 <= DaySummary.avgResponseTime s' <= 300.
Proof.
  intros d0 w checkEntry.
  destruct (average_within_samples sample_now checkEntry w
              {["2026-11-02.json" := Stored d0]} d0)
    as (d' & Hdir & Hall).
  - reflexivity.
  - vm_compute. reflexivity.
  - vm_compute. reflexivity.
  - destruct (Hall "api" (CheckResult.mk up 200 200))
      as (s' & Hs' & Hp); [reflexivity | left; vm_compute; by eexists |].
    exists d', s'. split; [exact Hdir|]. split; [exact Hs'|].
    assert (Hsamples :
      recorded_positive (DailyFile.checks d0 ++ [checkEntry]) "api"
      = [100; 300; 200]) by (vm_compute; reflexivity).
    rewrite Hsamples in Hp.
    destruct (Hp ltac:(discriminate)) as [_ Hrange].
    apply Hrange. intros t Ht. apply list_elem_of_In in Ht. simpl in Ht.
    destruct Ht as [<-|[<-|[<-|[]]]]; lia.
Defined.

(** Rounding to the nearest double does not depend on how the rational
    is written. *)
Lemma binary64_comp (x y : Q) :
  (0 <= x)%Q -> (x == y)%Q -> binary64 x = binary64 y.
Proof.
  intros Hx Hxy.
  assert (H : (binary64 x == binary64 y)%Q).
  { apply Qle_antisym; apply binary64_mono; lra. }
  unfold binary64 in *. apply Qred_complete.
  by rewrite !Qred_correct in H.
Qed.

Lemma percentage_all (t : Z) : 0 < t -> percentage t t = 100%Q.
Proof.
  intros Ht. unfold percentage.
  assert (E : (inject_Z t / inject_Z t == 1)%Q).
  { apply Qmult_inv_r. unfold Qeq, inject_Z; simpl. lia. }
  rewrite (binary64_comp (inject_Z t / inject_Z t) 1) by (rewrite ?E; lra).
  vm_compute. reflexivity.
Qed.

Lemma percentage_none (t : Z) : 0 < t -> percentage 0 t = 0%Q.
Proof.
  intros Ht. unfold percentage.
  assert (E : (inject_Z 0 / inject_Z t == 0)%Q).
  { unfold Qdiv. apply Qmult_0_l. }
  rewrite (binary64_comp (inject_Z 0 / inject_Z t) 0) by (rewrite ?E; lra).
  vm_compute. reflexivity.
Qed.

(** X9. With summaries satisfying the invariant, a probe of the entry
    that has or gets a summary and has no failed check today shows an
    uptime of exactly 100, and one that has only failed checks shows
    exactly 0: the floating-point computation is exact at both ends. *)
Theorem uptime_extremes (now : Z) (checkEntry : CheckEntry.t)
    (w : World) (dir : gmap string FileContent) (d0 : DailyFile.t) :
  let file := isoDate (Day now) +:+ ".json" in
  checks_dir w = Some dir ->
  prior_record (isoDate (Day now)) (dir !! file) = Some d0 ->
  entry_of_run checkEntry ->
  (forall id s, DailyFile.summary d0 !! id = Some s -> summary_inv s) ->
  exists d',
    checks_dir (snd (updateDailyFile now checkEntry w))
    = Some (<[file := Stored d']> dir)
    /\ forall id r, CheckEntry.results checkEntry !! id = Some r ->
         summarised d0 id ->
         exists s',
           DailyFile.summary d' !! id = Some s'
           /\ (DaySummary.downChecks s' = 0 ->
               DaySummary.uptimePercent s' = 100%Q)
           /\ (DaySummary.upChecks s' + DaySummary.degradedChecks s' = 0 ->
               DaySummary.uptimePercent s' = 0%Q).
Proof.
  intros file Hdir Hprior _ Hinv. exists (merged d0 checkEntry).
  rewrite (updateDailyFile_merged now checkEntry w dir d0 Hdir Hprior).
  destruct (merged_spec d0 checkEntry) as (_ & _ & Hs).
  cbn [snd checks_dir]. split; [done|].
  intros id r Hr Hsum. rewrite Hs, Hr.
  rewrite (summary_after_summarised d0 id _ r Hsum).
  eexists. split; [reflexivity|].
  assert (Hinv0 : summary_inv
            (default new_summary (DailyFile.summary d0 !! id))).
  { destruct (DailyFile.summary d0 !! id) as [s0|] eqn:Hs0; simpl.
    - by eapply Hinv.
    - apply new_summary_inv. }
  destruct (summarise_good_of_total (DailyFile.checks d0 ++ [checkEntry])
              id r _ Hinv0) as (Hu & Hg & Hd & Hadd & Hpos).
  destruct (summarise_counts (DailyFile.checks d0 ++ [checkEntry]) id r
              (default new_summary (DailyFile.summary d0 !! id)))
    as (_ & _ & _ & _ & Hp).
  rewrite Hp. split.
  - intros Hdown.
    replace (DaySummary.upChecks _ + DaySummary.degradedChecks _)
      with (DaySummary.totalChecks
              (summarise (DailyFile.checks d0 ++ [checkEntry]) id r
                 (default new_summary (DailyFile.summary d0 !! id))))
      by lia.
    by apply percentage_all.
  - intros Hnone. rewrite Hnone. by apply percentage_none.
Qed.

Lemma uptime_extremes_witness :
  let d0 :=
    DailyFile.mk "2026-11-02" []
      {["api" := DaySummary.mk 7 6 1 0 100 120 130]} in
  let w := mkWorld (Some {["2026-11-02.json" := Stored d0]}) [] in
  let checkEntry :=
    CheckEntry.mk "t" {["api" := CheckResult.mk degraded 6200 200]} in
  exists d' s',
    checks_dir (snd (updateDailyFile sample_now checkEntry w))
    = Some (<["2026-11-02.json" := Stored d']>
              {["2026-11-02.json" := Stored d0]})
    /\ DailyFile.summary d' !! "api" = Some s'
    /\ (DaySummary.downChecks s' = 0 -> DaySummary.uptimePercent s' = 100%Q).
Proof.
  intros d0 w checkEntry.
  destruct (uptime_extremes sample_now checkEntry w
              {["2026-11-02.json" := Stored d0]} d0)
    as (d' & Hdir & Hall).
  - reflexivity.
  - vm_compute. reflexivity.
  - vm_compute. reflexivity.
  - intros id s H. simpl in H.
    apply lookup_singleton_Some in H as [_ <-].
    unfold summary_inv; simpl. split_and!; try lia; done.
  - destruct (Hall "api" (CheckResult.mk degraded 6200 200))
      as (s' & Hs' & H100 & _);
      [reflexivity | left; vm_compute; by eexists |].
    exists d', s'. split; [exact Hdir|]. split; [exact Hs' | exact H100].
Defined.


(** ** Further properties of retention and of the whole run *)

Lemma cleanupOldData_no_dir (now : Z) (w : World) :
  checks_dir w = None -> cleanupOldData now w = (Ok tt, w).
Proof.
  intros Hdir. unfold cleanupOldData, bind, fs_existsSync_dir. rewrite Hdir.
  by rewrite bool_decide_eq_false_2 by by intros [? [=]].
Qed.

(** X10. The retention step never fails and only ever removes files or
    clears entry sequences: it succeeds on every world; every file
    present afterwards was present before, with the same content or the
    compacted one, so a surviving record keeps its date and summaries and
    an unreadable file stays unreadable; and a file whose name does not
    end in ".json" is never touched. *)
Theorem cleanupOldData_conservative (now : Z) (w : World) :
  fst (cleanupOldData now w) = Ok tt
  /\ (checks_dir w = None -> snd (cleanupOldData now w) = w)
  /\ forall dir, checks_dir w = Some dir ->
       exists dir',
         checks_dir (snd (cleanupOldData now w)) = Some dir'
         /\ (forall g d', dir' !! g = Some (Stored d') ->
               exists d, dir !! g = Some (Stored d)
                         /\ DailyFile.date d' = DailyFile.date d
                         /\ DailyFile.summary d' = DailyFile.summary d)
         /\ (forall g, dir' !! g = Some Corrupt -> dir !! g = Some Corrupt)
         /\ (forall g, endsWith g ".json" = false -> dir' !! g = dir !! g).
Proof.
  destruct (checks_dir w) as [dir|] eqn:Hdir.
  - destruct (cleanupOldData_spec now w dir Hdir)
      as (dir' & evs & Hrun & Hlook & _).
    rewrite Hrun. cbn [fst snd checks_dir].
    split; [done|]. split; [done|].
    intros ? [= <-]. exists dir'. split; [done|].
    assert (Hfrom : forall g c', dir' !! g = Some c' ->
              exists c, dir !! g = Some c /\ (c' = c \/ c' = compacted c)).
    { intros g c'. rewrite Hlook.
      destruct (expired _ g); [done|]. case_decide.
      - destruct (dir !! g) as [c|]; [|done]. intros [= <-]. eauto.
      - intros Hc. eauto. }
    split_and!.
    + intros g d' Hg. apply Hfrom in Hg as (c & Hc & [Heq|Heq]).
      * subst c. by exists d'.
      * destruct c as [|d]; [done|]. injection Heq as ->. by exists d.
    + intros g Hg. apply Hfrom in Hg as (c & Hc & [Heq|Heq]).
      * by subst c.
      * by destruct c.
    + intros g Hg. rewrite Hlook. unfold expired. rewrite Hg. simpl.
      rewrite decide_False; [done|].
      intros ->. by rewrite endsWith_json in Hg.
  - rewrite (cleanupOldData_no_dir now w Hdir). by repeat split.
Qed.

Lemma runAllChecks_ok (cfg : Config.t) (timestamp : string)
    (net : nat -> FetchOutcome) (order : list nat) (w : World) :
  exists entry evs,
    runAllChecks cfg timestamp net order w
    = (Ok entry, mkWorld (checks_dir w) (events w ++ evs))
    /\ CheckEntry.timestamp entry = timestamp.
Proof.
  unfold runAllChecks, bind. rewrite for_of_emit. cbn [ret].
  eexists _, _. split; reflexivity.
Qed.

(** A run, up to the aggregation step: the directory exists by then and
    the checks have produced an entry. *)
Lemma main_until_update (cfg : Config.t) (env : Env) (w : World) :
  exists entry w2,
    checks_dir w2 = Some (default ∅ (checks_dir w))
    /\ CheckEntry.timestamp entry = timestamp env
    /\ main cfg env w
       = (updateDailyFile (updateNow env) entry ;;
          cleanupOldData (cleanupNow env))%js w2.
Proof.
  set (w1 := match checks_dir w with
             | Some _ => w
             | None => mkWorld (Some ∅) (push (events w) EvMkdir)
             end).
  assert (Hw1 : fs_mkdirSync_recursive w = (Ok tt, w1)).
  { unfold fs_mkdirSync_recursive, w1. by destruct (checks_dir w). }
  assert (Hdir1 : checks_dir w1 = Some (default ∅ (checks_dir w))).
  { unfold w1. destruct (checks_dir w) eqn:E; simpl; [|done]. by rewrite E. }
  destruct (runAllChecks_ok cfg (timestamp env) (net env) (order env) w1)
    as (entry & evs & Hrun & Hts).
  exists entry, (mkWorld (checks_dir w1) (events w1 ++ evs)).
  split; [done|]. split; [done|].
  unfold main. unfold bind at 1. rewrite Hw1.
  unfold bind at 1. by rewrite Hrun.
Qed.

(** X11. In a checks directory whose files are daily records or text
    that does not parse, a run fails exactly when today's record exists
    and does not parse, and then with the parse error: a missing
    directory, a missing or readable record for today, unreadable
    records of other days and any outcome of the probes all let it end
    normally. *)
Theorem main_fails_only_on_corrupt_today (cfg : Config.t) (env : Env)
    (w : World) :
  let file := isoDate (Day (updateNow env)) +:+ ".json" in
  let dir := default ∅ (checks_dir w) in
  (dir !! file = Some Corrupt ->
   fst (main cfg env w) = Throw SyntaxError)
  /\ (dir !! file <> Some Corrupt -> fst (main cfg env w) = Ok tt).
Proof.
  intros file dir.
  destruct (main_until_update cfg env w) as (entry & w2 & Hdir & _ & ->).
  fold dir in Hdir. unfold bind. split.
  - intros Hc.
    by rewrite (updateDailyFile_corrupt (updateNow env) entry w2 dir Hdir Hc).
  - intros Hc.
    destruct (prior_record (isoDate (Day (updateNow env))) (dir !! file))
      as [d0|] eqn:Hprior.
    + rewrite (updateDailyFile_merged (updateNow env) entry w2 dir d0
                 Hdir Hprior).
      destruct (cleanupOldData_spec (cleanupNow env)
                  (mkWorld
                     (Some (<[file := Stored (merged d0 entry)]> dir))
                     (push (events w2)
                           (EvWriteFile file (merged d0 entry))))
                  _ eq_refl) as (dir' & evs' & Hclean & _).
      fold file. by rewrite Hclean.
    + exfalso. destruct (dir !! file) as [[|d]|]; simpl in Hprior; done.
Qed.

(** ** Reading records for the status page *)

Lemma loadDailyFile_spec (date : string) (w : World) :
  loadDailyFile date w = (Ok (readable_record w date), w).
Proof.
  unfold loadDailyFile, readable_record, bind, fs_existsSync.
  destruct (checks_dir w) as [dir|] eqn:Hdir; [|done].
  destruct (dir !! (date +:+ ".json")) as [[|d]|] eqn:Hfile.
  - rewrite bool_decide_eq_true_2 by by eexists. cbn [negb].
    unfold try_catch, fs_readFileSync. by rewrite Hdir, Hfile.
  - rewrite bool_decide_eq_true_2 by by eexists. cbn [negb].
    unfold try_catch, fs_readFileSync. by rewrite Hdir, Hfile.
  - by rewrite bool_decide_eq_false_2 by by intros [? [=]].
Qed.

(** X12. Reading a day's record for the status page never throws and
    never changes anything: it yields the stored record when the file
    exists and parses, and nothing when the directory or the file is
    missing or the file is unreadable. *)
Theorem loadDailyFile_never_throws (date : string) (w : World) :
  exists r,
    loadDailyFile date w = (Ok r, w)
    /\ (forall d, r = Some d <->
          exists dir, checks_dir w = Some dir
                      /\ dir !! (date +:+ ".json") = Some (Stored d))
    /\ (r = None <->
          checks_dir w = None
          \/ exists dir, checks_dir w = Some dir
               /\ (dir !! (date +:+ ".json") = None
                   \/ dir !! (date +:+ ".json") = Some Corrupt)).
Proof.
  exists (readable_record w date). split; [apply loadDailyFile_spec|].
  unfold readable_record.
  destruct (checks_dir w) as [dir|]; [|by split; split;
    [intros [=]|intros (? & [=] & _)|left|]].
  destruct (dir !! (date +:+ ".json")) as [[|d]|] eqn:Hfile; split; split.
  - intros [=].
  - intros (? & [= <-] & H). congruence.
  - intros _. right. exists dir. split; [done|]. by right.
  - done.
  - intros [= <-]. by exists dir.
  - intros (? & [= <-] & H). congruence.
  - intros [=].
  - intros [[=]|(? & [= <-] & [H|H])]; congruence.
  - intros [=].
  - intros (? & [= <-] & H). congruence.
  - intros _. right. exists dir. split; [done|]. by left.
  - done.
Qed.

Lemma getLatestCheck_spec (now : Z) (w : World) :
  getLatestCheck now w
  = (Ok (match readable_record w (isoDate (Day now)) with
         | Some f => last (DailyFile.checks f)
         | None => None
         end), w).
Proof.
  unfold getLatestCheck, bind. by rewrite loadDailyFile_spec.
Qed.

(** X13. After an update, the latest check read back on the same UTC
    day is the entry that was just aggregated. *)
Theorem latest_check_after_update (now now' : Z)
    (checkEntry : CheckEntry.t) (w : World)
    (dir : gmap string FileContent) (d0 : DailyFile.t) :
  let file := isoDate (Day now) +:+ ".json" in
  checks_dir w = Some dir ->
  prior_record (isoDate (Day now)) (dir !! file) = Some d0 ->
  entry_of_run checkEntry ->
  Day now' = Day now ->
  fst (getLatestCheck now' (snd (updateDailyFile now checkEntry w)))
  = Ok (Some checkEntry).
Proof.
  intros file Hdir Hprior _ Hday.
  rewrite (updateDailyFile_merged now checkEntry w dir d0 Hdir Hprior).
  rewrite getLatestCheck_spec, Hday. cbn [fst snd].
  unfold readable_record. cbn [checks_dir]. fold file.
  rewrite lookup_insert_eq.
  destruct (merged_spec d0 checkEntry) as (_ & -> & _).
  by rewrite last_snoc.
Qed.

Lemma latest_check_after_update_witness :
  let w := mkWorld (Some ∅) [] in
  let checkEntry :=
    CheckEntry.mk "t" {["api" := CheckResult.mk up 105 200]} in
  fst (getLatestCheck (sample_now + 60000)
         (snd (updateDailyFile sample_now checkEntry w)))
  = Ok (Some checkEntry).
Proof.
  intros w checkEntry.
  apply (latest_check_after_update sample_now (sample_now + 60000)
           checkEntry w ∅ (DailyFile.mk "2026-11-02" [] ∅)).
  - reflexivity.
  - vm_compute. reflexivity.
  - vm_compute. reflexivity.
  - reflexivity.
Defined.



Lemma dates_from_spec (n : nat) (today : Z) (acc : list string) :
  dates_from n today acc
  = acc ++ map (fun k => isoDate (today - Z.of_nat k)) (reverse (seq 0 n)).
Proof.
  revert acc. induction n as [|i IH]; intros acc.
  - simpl. by rewrite app_nil_r.
  - cbn [dates_from]. rewrite IH. unfold push.
    rewrite seq_S, reverse_snoc, <- app_assoc. reflexivity.
Qed.

Lemma getDatesRange_lookup (days now : Z) (i : nat) :
  (i < Z.to_nat days)%nat ->
  getDatesRange days now !! i
  = Some (isoDate (Day now - (days - 1 - Z.of_nat i))).
Proof.
  intros Hi. unfold getDatesRange. rewrite dates_from_spec, app_nil_l.
  rewrite list_lookup_fmap.
  assert (Hrev : reverse (seq 0 (Z.to_nat days)) !! i
                 = Some (Z.to_nat days - 1 - i)%nat).
  { rewrite reverse_lookup by (rewrite length_seq; lia).
    rewrite length_seq, lookup_seq_lt by lia. f_equal. lia. }
  rewrite Hrev. simpl. do 2 f_equal. lia.
Qed.

(** X15. [getDatesRange days] lists exactly [days] dates (none when
    [days] is not positive): the consecutive UTC days ending today,
    oldest first; with four-digit years the dates are strictly ascending
    as strings, hence distinct. *)
Theorem getDatesRange_consecutive (days now : Z) :
  length (getDatesRange days now) = Z.to_nat days
  /\ (forall i, (i < Z.to_nat days)%nat ->
        getDatesRange days now !! i
        = Some (isoDate (Day now - (days - 1 - Z.of_nat i))))
  /\ (0 < days -> last (getDatesRange days now) = Some (isoDate (Day now)))
  /\ (four_digit_year (Day now - days) -> four_digit_year (Day now) ->
      forall i j a b,
        (i < j)%nat ->
        getDatesRange days now !! i = Some a ->
        getDatesRange days now !! j = Some b ->
        String.ltb a b = true).
Proof.
  assert (Hlen : length (getDatesRange days now) = Z.to_nat days).
  { unfold getDatesRange. rewrite dates_from_spec, app_nil_l.
    by rewrite length_map, length_reverse, length_seq. }
  split; [done|]. split; [apply getDatesRange_lookup|]. split.
  - intros Hpos. rewrite last_lookup, Hlen.
    rewrite getDatesRange_lookup by lia. do 2 f_equal. lia.
  - intros Hlo Hhi i j a b Hij Ha Hb.
    assert (Hj : (j < Z.to_nat days)%nat).
    { apply lookup_lt_Some in Hb. by rewrite Hlen in Hb. }
    rewrite getDatesRange_lookup in Ha, Hb by lia.
    injection Ha as <-. injection Hb as <-.
    rewrite isoDate_ltb by (unfold four_digit_year in *; lia).
    apply Z.ltb_lt. lia.
Qed.

(** ** Thresholds and colours *)

(** X16. The status derived from an uptime percentage and the colour of
    its bar follow the same thresholds: [up] from 99.5, [degraded] from
    95 to below 99.5, [down] below 95; the colour is one of the two
    greens exactly when the status is [up], and red exactly when it is
    [down]. *)
Theorem status_and_colour_agree (percent : Q) :
  (getStatusFromUptime percent = up <-> (995 # 10 <= percent)%Q)
  /\ (getStatusFromUptime percent = degraded
      <-> (95 <= percent)%Q /\ (percent < 995 # 10)%Q)
  /\ (getStatusFromUptime percent = down <-> (percent < 95)%Q)
  /\ (getStatusFromUptime percent = up
      <-> getUptimeColor percent = COLORS.uptimeHigh
          \/ getUptimeColor percent = COLORS.uptimeMedHigh)
  /\ (getStatusFromUptime percent = down
      <-> getUptimeColor percent = COLORS.uptimeLow).
Proof.
  unfold getStatusFromUptime, getUptimeColor.
  destruct (Qle_bool 100 percent) eqn:H100;
    destruct (Qle_bool (995 # 10) percent) eqn:H995;
    destruct (Qle_bool 99 percent) eqn:H99;
    destruct (Qle_bool 95 percent) eqn:H95;
    repeat match goal with
           | H : Qle_bool _ _ = true |- _ => apply Qle_bool_iff in H
           | H : Qle_bool _ _ = false |- _ =>
               apply not_true_iff_false in H;
               rewrite Qle_bool_iff in H; apply Qnot_le_lt in H
           end;
    try (exfalso; lra);
    (split_and!; split; intros; try done; try lra;
     repeat match goal with
            | H : _ /\ _ |- _ => destruct H
            | H : _ \/ _ |- _ => destruct H
            end; try done; try lra; try (split; lra); try (by left);
     try (by right)).
Qed.

(** ** XML escaping *)

Lemma append_assoc (a b c : string) : (a +:+ b) +:+ c = a +:+ (b +:+ c).
Proof.
  induction a as [|x a IH]; [reflexivity |].
  change (String x a +:+ b) with (String x (a +:+ b)).
  change (String x (a +:+ b) +:+ c) with (String x ((a +:+ b) +:+ c)).
  by rewrite IH.
Qed.

Lemma replace_all_app (a b : string) (c : ascii) (rep : string) :
  replace_all (a +:+ b) c rep = replace_all a c rep +:+ replace_all b c rep.
Proof.
  induction a as [|x a IH]; [reflexivity |].
  change (String x a +:+ b) with (String x (a +:+ b)).
  cbn [replace_all]. rewrite IH.
  destruct (Ascii.eqb x c); [| reflexivity].
  by rewrite append_assoc.
Qed.

Lemma escapeXml_app (a b : string) :
  escapeXml (a +:+ b) = escapeXml a +:+ escapeXml b.
Proof. unfold escapeXml. by rewrite !replace_all_app. Qed.

Lemma escapeXml_char (c : ascii) :
  escapeXml (String c EmptyString) = escape_char c.
Proof.
  unfold escapeXml, escape_char.
  destruct (Ascii.eqb_spec c "&") as [-> | Hamp]; [reflexivity |].
  destruct (Ascii.eqb_spec c "<") as [-> | Hlt]; [reflexivity |].
  destruct (Ascii.eqb_spec c ">") as [-> | Hgt]; [reflexivity |].
  destruct (Ascii.eqb_spec c dquote) as [-> | Hq]; [reflexivity |].
  destruct (Ascii.eqb_spec c "'") as [-> | Ha]; [reflexivity |].
  cbn [replace_all].
  rewrite (proj2 (Ascii.eqb_neq c "&") Hamp). cbn [replace_all].
  rewrite (proj2 (Ascii.eqb_neq c "<") Hlt). cbn [replace_all].
  rewrite (proj2 (Ascii.eqb_neq c ">") Hgt). cbn [replace_all].
  rewrite (proj2 (Ascii.eqb_neq c dquote) Hq). cbn [replace_all].
  rewrite (proj2 (Ascii.eqb_neq c "'") Ha). reflexivity.
Qed.

(** The five replacements in a row amount to escaping each character on
    its own: the ampersand goes first, and no entity contains a
    character that a later replacement rewrites. *)
Lemma escapeXml_each (s : string) : escapeXml s = escape_each s.
Proof.
  induction s as [|c s IH]; [reflexivity |].
  change (String c s) with (String c EmptyString +:+ s).
  rewrite escapeXml_app, escapeXml_char, IH. reflexivity.
Qed.

Lemma markup_free_app (a b : string) :
  markup_free a -> markup_free b -> markup_free (a +:+ b).
Proof.
  induction a as [|x a IH]; [done |].
  cbn [String.append markup_free]. intros (? & ? & ? & ? & Ha) Hb.
  split_and!; try done. by apply IH.
Qed.

Lemma markup_free_escape_char (c : ascii) : markup_free (escape_char c).
Proof.
  unfold escape_char.
  destruct (Ascii.eqb_spec c "&"); [cbn; split_and!; done |].
  destruct (Ascii.eqb_spec c "<"); [cbn; split_and!; done |].
  destruct (Ascii.eqb_spec c ">"); [cbn; split_and!; done |].
  destruct (Ascii.eqb_spec c dquote); [cbn; split_and!; done |].
  destruct (Ascii.eqb_spec c "'"); [cbn; split_and!; done |].
  cbn. split_and!; done.
Qed.

Lemma prefix_entity_other (c : ascii) (p r : string) :
  c <> "&"%char -> String.prefix (String "&" p) (String c r) = false.
Proof.
  intros Hc. cbn [String.prefix].
  destruct (ascii_dec "&" c) as [E | _]; [congruence | reflexivity].
Qed.

Lemma unescape_entity (fuel : nat) (rest : string) :
  unescape (S fuel) ("&amp;" +:+ rest) = String "&" (unescape fuel rest)
  /\ unescape (S fuel) ("&lt;" +:+ rest) = String "<" (unescape fuel rest)
  /\ unescape (S fuel) ("&gt;" +:+ rest) = String ">" (unescape fuel rest)
  /\ unescape (S fuel) ("&quot;" +:+ rest)
     = String dquote (unescape fuel rest)
  /\ unescape (S fuel) ("&apos;" +:+ rest) = String "'" (unescape fuel rest).
Proof. destruct rest; split_and!; reflexivity. Qed.

Lemma unescape_escape_each (s : string) (fuel : nat) :
  (String.length s <= fuel)%nat -> unescape fuel (escape_each s) = s.
Proof.
  revert fuel. induction s as [|c s IH]; intros fuel Hfuel.
  - by destruct fuel.
  - destruct fuel as [|fuel]; [simpl in Hfuel; lia |].
    assert (Hrest : unescape fuel (escape_each s) = s)
      by (apply IH; simpl in Hfuel; lia).
    destruct (unescape_entity fuel (escape_each s))
      as (Eamp & Elt & Egt & Equot & Eapos).
    cbn [escape_each]. unfold escape_char.
    destruct (Ascii.eqb_spec c "&") as [-> | Hamp];
      [by rewrite Eamp, Hrest |].
    destruct (Ascii.eqb_spec c "<") as [-> | Hlt];
      [by rewrite Elt, Hrest |].
    destruct (Ascii.eqb_spec c ">") as [-> | Hgt];
      [by rewrite Egt, Hrest |].
    destruct (Ascii.eqb_spec c dquote) as [-> | Hq];
      [by rewrite Equot, Hrest |].
    destruct (Ascii.eqb_spec c "'") as [-> | Ha];
      [by rewrite Eapos, Hrest |].
    change (String c EmptyString +:+ escape_each s)
      with (String c (escape_each s)).
    cbn [unescape].
    rewrite !prefix_entity_other by exact Hamp.
    by rewrite Hrest.
Qed.

Lemma length_escape_each (s : string) :
  (String.length s <= String.length (escape_each s))%nat.
Proof.
  induction s as [|c s IH]; [done |].
  cbn [escape_each]. rewrite length_app.
  assert (1 <= String.length (escape_char c))%nat.
  { unfold escape_char.
    repeat match goal with
           | |- context [Ascii.eqb ?a ?b] => destruct (Ascii.eqb a b)
           end; simpl; lia. }
  simpl. lia.
Qed.

(** X17. [escapeXml] escapes every character on its own; its output
    contains no [<], [>], quote or apostrophe; and reading the entities
    back gives the original text, so distinct texts have distinct
    escapings. *)
Theorem escapeXml_lossless (s : string) :
  escapeXml s = escape_each s
  /\ markup_free (escapeXml s)
  /\ unescape (String.length (escapeXml s)) (escapeXml s) = s
  /\ forall t, escapeXml t = escapeXml s -> t = s.
Proof.
  assert (Hback : forall u,
            unescape (String.length (escapeXml u)) (escapeXml u) = u).
  { intros u. rewrite escapeXml_each.
    apply unescape_escape_each, length_escape_each. }
  split; [apply escapeXml_each |]. split; [| split; [apply Hback |]].
  - rewrite escapeXml_each. induction s as [|c s IH]; [done |].
    cbn [escape_each]. apply markup_free_app;
      [apply markup_free_escape_char | exact IH].
  - intros t Heq. rewrite <- (Hback t), Heq. apply Hback.
Qed.
